(** * Sistema de detección de objetos peligrosos en tiempo real

    Shallow embedding of [deteccion_tiempo_real.py]: the static danger
    table, the start-up scan of the model's class table, the per-frame
    detection filter, the alert overlay and event log, the keyboard
    controls and the [try / except KeyboardInterrupt / finally] session.

    Conventions of the embedding:
    - Python dictionaries ([OBJETOS_PELIGROSOS], [modelo.names]) are
      [gmap]s; Python lists are lists; Python [int]s are [Z].
    - Python floats (confidences, clock readings, font scales) are
      rationals [Q], compared exactly; a float operation is the exact
      operation followed by the rounding [redondear].
    - What the script imports and does not define is a parameter of the
      section: the predictor [modelo.predict], the two float formats
      ([:.0%] and [:.1f]), the text measure [cv2.getTextSize] and the
      rounding of float arithmetic.
    - Console output, window and camera calls are recorded, in order, in
      the [traza] field of the state.  Drawing calls on the annotated
      image are recorded, in order, in the image's [trazos]. *)

From Stdlib Require Import ZArith QArith Lia Ascii String DecimalString.
From stdpp Require Import gmap strings list fin_maps.

Local Open Scope Z_scope.
Local Open Scope string_scope.
Local Open Scope list_scope.

(** ** Static configuration (lines 11-19) *)

Definition OBJETOS_PELIGROSOS : gmap string string :=
  <["bottle" := "🍾 BOTELLA"]>
  (<["knife" := "🔪 CUCHILLO"]>
  (<["baseball bat" := "⚾ BATE"]>
  (<["scissors" := "✂️ TIJERAS"]>
  (<["fork" := "🍴 TENEDOR"]>
  (<["spoon" := "🥄 CUCHARA"]> ∅))))).

(** [nombre in OBJETOS_PELIGROSOS.keys()] *)
Definition es_peligroso (nombre : string) : bool :=
  bool_decide (is_Some (OBJETOS_PELIGROSOS !! nombre)).

(** ** Danger ids (lines 30-35)

    The loop over [modelo.names.items()] appends [idx] when [nombre] is
    a key of the table.  The [print] of each selected class is kept in
    the second component.  The items come in the order of the map, which
    need not be the dictionary's insertion order; the list is only ever
    tested for membership. *)

Definition paso_clase (acc : list Z * list string) (item : Z * string)
  : list Z * list string :=
  let '(idx, nombre) := item in
  match OBJETOS_PELIGROSOS !! nombre with
  | Some alerta => (acc.1 ++ [idx], acc.2 ++ ["✓ Detectando: " +:+ alerta])
  | None => acc
  end.

Definition escanear_clases (names : gmap Z string) : list Z * list string :=
  foldl paso_clase ([], []) (map_to_list names).

Definition clases_peligrosas_ids (names : gmap Z string) : list Z :=
  (escanear_clases names).1.


(** ** Images, drawing calls and model output *)

(** A numpy image of shape [(h, w, 3)]: rows of BGR pixels. *)
Definition Frame : Type := list (list (Z * Z * Z)).

Inductive Fuente : Type := FONT_HERSHEY_SIMPLEX | FONT_HERSHEY_DUPLEX.

(** One [cv2.rectangle] or [cv2.putText] call, with its arguments. *)
Inductive Trazo : Type :=
| Rectangulo (pt1 pt2 : Z * Z) (color : Z * Z * Z) (grosor : Z)
| Texto (texto : string) (org : Z * Z) (fuente : Fuente) (escala : Q)
        (color : Z * Z * Z) (grosor : Z).

(** The annotated image: the array returned by [r.plot()] and the
    drawing calls made on it since, oldest first. *)
Record Imagen : Type := { pixeles : Frame; trazos : list Trazo }.

(** [img.shape[0]] *)
Definition alto (img : Imagen) : Z := Z.of_nat (length (pixeles img)).

(** One element of [r.boxes]: [int(box.cls)], [float(box.conf)] and
    [box.xyxy[0]]. *)
Record Box : Type := { cls : Z; conf : Q; xyxy : Q * Q * Q * Q }.

(** One element of the list returned by [modelo.predict]. *)
Record Resultado : Type := { plot : Frame; boxes : list Box }.

(** The dictionary appended to [objetos_detectados] (lines 103-108). *)
Record Deteccion : Type :=
  { nombre : string; alerta : string; confianza : Q; bbox : Q * Q * Q * Q }.

(** ** Observable effects and program state *)

Inductive Efecto : Type :=
| Consola (s : string)
| CapSet (prop : string) (valor : Z)
| Imshow (ventana : string) (img : Imagen)
| Imwrite (archivo : string) (img : Imagen)
| CapRelease
| DestroyAllWindows.

Inductive Excepcion : Type :=
| NameError | KeyError | ZeroDivisionError | KeyboardInterrupt | SystemExit.

(** The module-level variables that the loop reads and writes, and the
    trace of effects so far.  [frame_anotado] is [None] while the name
    is unbound. *)
Record Estado : Type := {
  frame_count : Z;
  fps_start_time : Q;
  fps : Q;
  alertas_totales : Z;
  log_eventos : list string;
  frame_anotado : option Imagen;
  traza : list Efecto
}.

Definition con_fps (fc : Z) (t : Q) (f : Q) (st : Estado) : Estado :=
  {| frame_count := fc; fps_start_time := t; fps := f;
     alertas_totales := alertas_totales st; log_eventos := log_eventos st;
     frame_anotado := frame_anotado st; traza := traza st |}.

Definition con_frame_count (fc : Z) (st : Estado) : Estado :=
  con_fps fc (fps_start_time st) (fps st) st.

Definition con_alertas_totales (n : Z) (st : Estado) : Estado :=
  {| frame_count := frame_count st; fps_start_time := fps_start_time st;
     fps := fps st; alertas_totales := n; log_eventos := log_eventos st;
     frame_anotado := frame_anotado st; traza := traza st |}.

Definition con_log_eventos (l : list string) (st : Estado) : Estado :=
  {| frame_count := frame_count st; fps_start_time := fps_start_time st;
     fps := fps st; alertas_totales := alertas_totales st; log_eventos := l;
     frame_anotado := frame_anotado st; traza := traza st |}.

Definition con_frame_anotado (img : option Imagen) (st : Estado) : Estado :=
  {| frame_count := frame_count st; fps_start_time := fps_start_time st;
     fps := fps st; alertas_totales := alertas_totales st;
     log_eventos := log_eventos st; frame_anotado := img; traza := traza st |}.

Definition con_traza (t : list Efecto) (st : Estado) : Estado :=
  {| frame_count := frame_count st; fps_start_time := fps_start_time st;
     fps := fps st; alertas_totales := alertas_totales st;
     log_eventos := log_eventos st; frame_anotado := frame_anotado st;
     traza := t |}.

(** ** A state and exception monad for the loop body *)

Inductive Res (A : Type) : Type :=
| Val (a : A)
| Exc (ex : Excepcion).
Arguments Val {A} a.
Arguments Exc {A} ex.

Definition M (A : Type) : Type := Estado → Res A * Estado.

Definition ret {A} (a : A) : M A := λ st, (Val a, st).

Definition bind {A B} (c : M A) (k : A → M B) : M B :=
  λ st, match c st with
        | (Val a, st') => k a st'
        | (Exc ex, st') => (Exc ex, st')
        end.

Definition lanzar {A} (ex : Excepcion) : M A := λ st, (Exc ex, st).
Definition leer : M Estado := λ st, (Val st, st).
Definition modificar (f : Estado → Estado) : M unit := λ st, (Val tt, f st).
Definition efecto (e : Efecto) : M unit :=
  modificar (λ st, con_traza (traza st ++ [e]) st).
Definition print (s : string) : M unit := efecto (Consola s).

Notation "x <~ c ;; k" := (bind c (λ x, k))
  (at level 100, c at next level, right associativity).
Notation "c ;;; k" := (bind c (λ _, k))
  (at level 100, right associativity).

(** ** Strings *)

Definition nl : string := String (Ascii.ascii_of_nat 10) EmptyString.

(** [s * n] *)
Fixpoint repetir (n : nat) (s : string) : string :=
  match n with
  | O => ""
  | S n' => s +:+ repetir n' s
  end.

(** [str(n)] for a Python [int]. *)
Definition str_int (n : Z) : string := NilZero.string_of_int (Z.to_int n).

(** [l[-n:]] for [n > 0]: the last [n] elements, all of [l] when it is
    shorter. *)
Definition ultimos {A} (n : nat) (l : list A) : list A :=
  drop (length l - n) l.

(** [evento in log] on strings. *)
Definition esta_en (evento : string) (l : list string) : bool :=
  bool_decide (evento ∈ l).

(** [ord(c)] *)
Definition ord (c : Ascii.ascii) : Z := Z.of_nat (Ascii.nat_of_ascii c).

(** A [for] loop threading an accumulator; stops at the first exception. *)
Fixpoint para_cada {A B} (f : B → A → M B) (l : list A) (b : B) : M B :=
  match l with
  | [] => ret b
  | x :: l' => b' <~ f b x ;; para_cada f l' b'
  end.

(** ** What the environment supplies to one loop iteration *)

Record Entrada : Type := {
  lectura : option Frame;   (* [cap.read()]: [None] when [ret] is false *)
  reloj : Q * Q;            (* [time.time()] at line 79 and at line 80 *)
  hora : nat → string;      (* [strftime('%H:%M:%S')] at the i-th object *)
  tecla : Z;                (* [cv2.waitKey(1)] *)
  fecha : string            (* [strftime('%Y%m%d_%H%M%S')] at line 173 *)
}.

(** What happens between two tests of [while True]: one pass of the
    body, or the interrupt signal.  The signal is taken at the loop
    test; what the handlers then do is stated for every state. *)
Inductive Evento : Type :=
| Vuelta (e : Entrada)
| Ctrl_C.

Inductive Control : Type := Seguir | Romper.

(** How far the loop got on the events given: still running, or left
    through [break]. *)
Inductive Curso : Type := Corriendo | Salio.

Definition estado_inicial (t0 : Q) : Estado :=
  {| frame_count := 0; fps_start_time := t0; fps := 0%Q;
     alertas_totales := 0; log_eventos := []; frame_anotado := None;
     traza := [] |}.

(** ** A concrete environment

    A three-class table, a predictor that honours its threshold, simple
    stand-ins for the float formats and the text measure, and a few loop
    inputs.  The properties below are instantiated on them. *)
Module Demo.

Definition names : gmap Z string :=
  <[0 := "person"]> (<[39 := "bottle"]> (<[43 := "knife"]> ∅)).

Definition frame : Frame := [[(0, 0, 0); (9, 9, 9)]; [(0, 0, 0); (9, 9, 9)]].

Definition caja (c : Z) (p : Q) : Box :=
  {| cls := c; conf := p; xyxy := (0, 0, 1, 1)%Q |}.

(** Raw boxes of the scene: a knife, a person, a bottle and a faint
    second bottle. *)
Definition cajas : list Box :=
  [caja 43 (8 # 10); caja 0 (9 # 10); caja 39 (4 # 10); caja 39 (2 # 10)].

Definition predict (f : Frame) (c : Q) : list Resultado :=
  [{| plot := f; boxes := filter (λ b, Qle_bool c (conf b) = true) cajas |}].

(** A predictor that finds nothing, with one result and with none. *)
Definition predict_vacio (f : Frame) (c : Q) : list Resultado :=
  [{| plot := f; boxes := [] |}].
Definition predict_nada (f : Frame) (c : Q) : list Resultado := [].

Definition formato_pct (x : Q) : string :=
  str_int (Qnum x * 100 / Zpos (Qden x)) +:+ "%".
Definition formato_fps (x : Q) : string :=
  str_int (Qnum x / Zpos (Qden x)) +:+ ".0".
Definition getTextSize (s : string) (f : Fuente) (escala : Q) (g : Z)
  : Z * Z := (16 * Z.of_nat (String.length s), 22).
(** The clock readings used below give exactly representable results. *)
Definition redondear (x : Q) : Q := x.

Definition entrada (k : Z) : Entrada :=
  {| lectura := Some frame; reloj := (1, 1)%Q; hora := λ _, "12:00:00";
     tecla := k; fecha := "20240101_120000" |}.

Definition sin_lectura : Entrada :=
  {| lectura := None; reloj := (1, 1)%Q; hora := λ _, "12:00:00";
     tecla := -1; fecha := "20240101_120000" |}.

(** The two detections the filter builds from [cajas] at threshold 0.3. *)
Definition cuchillo : Deteccion :=
  {| nombre := "knife"; alerta := "🔪 CUCHILLO"; confianza := 8 # 10;
     bbox := (0, 0, 1, 1)%Q |}.
Definition botella : Deteccion :=
  {| nombre := "bottle"; alerta := "🍾 BOTELLA"; confianza := 4 # 10;
     bbox := (0, 0, 1, 1)%Q |}.

(** A state whose log holds seven lines, the first one repeated nowhere
    in the last five. *)
Definition con_historia : Estado :=
  {| frame_count := 3; fps_start_time := 0%Q; fps := 0%Q;
     alertas_totales := 9;
     log_eventos := ["a"; "b"; "c"; "d"; "e"; "f"; "g"];
     frame_anotado := None; traza := [] |}.

End Demo.

(** Further states for the concrete environment. *)
Module Demo2.

(** The 30th frame of a cycle is next; the cycle started at clock 0. *)
Definition en_29 : Estado :=
  {| frame_count := 29; fps_start_time := 0%Q; fps := 0%Q;
     alertas_totales := 0; log_eventos := []; frame_anotado := None;
     traza := [] |}.


(** A state in which a frame has already been annotated. *)
Definition con_frame : Estado :=
  {| frame_count := 1; fps_start_time := 0%Q; fps := 0%Q;
     alertas_totales := 0; log_eventos := [];
     frame_anotado := Some {| pixeles := Demo.frame; trazos := [] |};
     traza := [] |}.

End Demo2.

Section Programa.

(** [modelo.names] *)
Variable names : gmap Z string.
(** [modelo.predict(source=frame, conf=c, verbose=False)] *)
Variable predict : Frame → Q → list Resultado.
(** [f"{x:.0%}"] and [f"{x:.1f}"] *)
Variable formato_pct : Q → string.
Variable formato_fps : Q → string.
(** [cv2.getTextSize(texto, fuente, escala, grosor)[0]] *)
Variable getTextSize : string → Fuente → Q → Z → Z * Z.
(** The float nearest to a real number: the result of a float operation
    is the exact result rounded. *)
Variable redondear : Q → Q.

(** The [conf] argument of line 84. *)
Definition umbral : Q := 3 # 10.

(** *** FPS counter (lines 76-81)

    Line 79 subtracts two floats and divides by the difference.  The
    difference of two floats is zero exactly when they are equal, so the
    division raises exactly when the two clock readings are equal. *)
Definition calcular_fps (e : Entrada) : M unit :=
  st <~ leer ;;
  let fc := frame_count st + 1 in
  if (30 <=? fc)%Z then
    let dt := (fst (reloj e) - fps_start_time st)%Q in
    if Qeq_bool dt 0 then
      modificar (con_frame_count fc) ;;; lanzar ZeroDivisionError
    else
      modificar (con_fps 0 (snd (reloj e))
                   (redondear (inject_Z fc / redondear dt)))
  else modificar (con_frame_count fc).

(** *** Detection filter (lines 84-108) *)
Definition revisar_box (objetos_detectados : list Deteccion) (box : Box)
  : M (list Deteccion) :=
  let clase_id := cls box in
  if bool_decide (clase_id ∈ clases_peligrosas_ids names) then
    match names !! clase_id with
    | None => lanzar KeyError
    | Some nombre_clase =>
        let confianza := conf box in
        match OBJETOS_PELIGROSOS !! nombre_clase with
        | None => lanzar KeyError
        | Some alerta =>
            ret (objetos_detectados ++
                 [{| nombre := nombre_clase; alerta := alerta;
                     confianza := confianza; bbox := xyxy box |}])
        end
    end
  else ret objetos_detectados.

Definition revisar_resultado (objetos_detectados : list Deteccion)
  (r : Resultado) : M (list Deteccion) :=
  modificar (con_frame_anotado (Some {| pixeles := plot r; trazos := [] |})) ;;;
  para_cada revisar_box (boxes r) objetos_detectados.

Definition deteccion (frame : Frame) : M (list Deteccion) :=
  let resultados := predict frame umbral in
  para_cada revisar_resultado resultados [].

(** *** Alerts and event log (lines 110-138) *)

(** A drawing call on [frame_anotado]; the name must be bound. *)
Definition dibujar (t : Trazo) : M unit :=
  st <~ leer ;;
  match frame_anotado st with
  | None => lanzar NameError
  | Some img =>
      modificar (con_frame_anotado
        (Some {| pixeles := pixeles img; trazos := trazos img ++ [t] |}))
  end.

(** Lines 136-138. *)
Definition registrar (evento : string) : M unit :=
  st <~ leer ;;
  if negb (esta_en evento (ultimos 5 (log_eventos st))) then
    print ("🚨 " +:+ evento) ;;;
    modificar (λ st, con_log_eventos (log_eventos st ++ [evento]) st)
  else ret tt.

Definition texto_chip (obj : Deteccion) : string :=
  alerta obj +:+ " - " +:+ formato_pct (confianza obj).

Definition texto_evento (timestamp : string) (obj : Deteccion) : string :=
  "[" +:+ timestamp +:+ "] " +:+ alerta obj +:+ " - Confianza: "
      +:+ formato_pct (confianza obj).

(** Body of the loop of line 123; the accumulator is [y_pos] and the
    number of objects already listed. *)
Definition listar_objeto (e : Entrada) (acc : Z * nat) (obj : Deteccion)
  : M (Z * nat) :=
  let '(y_pos, i) := acc in
  let texto := texto_chip obj in
  let text_size := getTextSize texto FONT_HERSHEY_SIMPLEX (8 # 10) 2 in
  dibujar (Rectangulo (40, y_pos - 30) (40 + fst text_size + 20, y_pos + 10)
                      (0, 100, 255) (-1)) ;;;
  dibujar (Texto texto (50, y_pos) FONT_HERSHEY_SIMPLEX (8 # 10)
                 (255, 255, 255) 2) ;;;
  registrar (texto_evento (hora e i) obj) ;;;
  ret (y_pos + 50, S i).

Definition texto_banner (n : nat) : string :=
  "ALERTA: " +:+ str_int (Z.of_nat n) +:+ " OBJETO(S) PELIGROSO(S) DETECTADO(S)".

Definition banner : Trazo :=
  Rectangulo (40, 20) (1240, 80) (0, 0, 255) (-1).

Definition alertas (e : Entrada) (objetos_detectados : list Deteccion)
  : M unit :=
  match objetos_detectados with
  | [] => ret tt
  | _ :: _ =>
      modificar (λ st, con_alertas_totales
        (alertas_totales st + Z.of_nat (length objetos_detectados)) st) ;;;
      dibujar banner ;;;
      dibujar (Texto (texto_banner (length objetos_detectados)) (50, 60)
                     FONT_HERSHEY_DUPLEX (9 # 10) (255, 255, 255) 2) ;;;
      para_cada (listar_objeto e) objetos_detectados (120, O) ;;;
      ret tt
  end.

(** *** On-screen information and display (lines 140-163) *)

Definition estado_de (objetos_detectados : list Deteccion)
  : string * (Z * Z * Z) :=
  match objetos_detectados with
  | _ :: _ => ("🔴 ALERTA ACTIVA", (0, 0, 255))
  | [] => ("🟢 ZONA SEGURA", (0, 255, 0))
  end.

Definition ventana : string := "Sistema de Seguridad - Estadios Ecuador".

Definition informacion (objetos_detectados : list Deteccion) : M unit :=
  st <~ leer ;;
  match frame_anotado st with
  | None => lanzar NameError
  | Some img0 =>
      let h := alto img0 in
      dibujar (Texto ("FPS: " +:+ formato_fps (fps st)) (10, h - 70)
                     FONT_HERSHEY_SIMPLEX (7 # 10) (0, 255, 0) 2) ;;;
      let '(estado, color_estado) := estado_de objetos_detectados in
      dibujar (Texto estado (10, h - 40) FONT_HERSHEY_DUPLEX (9 # 10)
                     color_estado 2) ;;;
      dibujar (Texto ("Total alertas: " +:+ str_int (alertas_totales st))
                     (10, h - 10) FONT_HERSHEY_SIMPLEX (7 # 10)
                     (255, 255, 255) 2) ;;;
      st' <~ leer ;;
      match frame_anotado st' with
      | None => lanzar NameError
      | Some img => efecto (Imshow ventana img)
      end
  end.

(** *** Keyboard controls (lines 165-180) *)
Definition controles (e : Entrada) : M Control :=
  let key := Z.land (tecla e) 255 in
  if (key =? ord "q"%char)%Z then
    print (nl +:+ "🛑 Deteniendo sistema de detección...") ;;;
    ret Romper
  else if (key =? ord "s"%char)%Z then
    let nombre_archivo := "captura_alerta_" +:+ fecha e +:+ ".jpg" in
    st <~ leer ;;
    match frame_anotado st with
    | None => lanzar NameError
    | Some img =>
        efecto (Imwrite nombre_archivo img) ;;;
        print ("📸 Captura guardada: " +:+ nombre_archivo) ;;;
        ret Seguir
    end
  else if (key =? ord "r"%char)%Z then
    modificar (con_alertas_totales 0) ;;;
    modificar (con_log_eventos []) ;;;
    print "🔄 Contador de alertas reseteado" ;;;
    ret Seguir
  else ret Seguir.

(** *** One pass of the loop body (lines 70-180) *)

(** Lines 76-163: everything between a successful read and the
    keyboard poll.  Returns the frame's detection list. *)
Definition procesar_frame (frame : Frame) (e : Entrada)
  : M (list Deteccion) :=
  calcular_fps e ;;;
  objetos_detectados <~ deteccion frame ;;
  alertas e objetos_detectados ;;;
  informacion objetos_detectados ;;;
  ret objetos_detectados.

Definition iteracion (e : Entrada) : M Control :=
  match lectura e with
  | None => print "❌ Error al capturar frame" ;;; ret Romper
  | Some frame => procesar_frame frame e ;;; controles e
  end.

(** *** The session (lines 68-203) *)

(** [while True] over the events the environment supplies. *)
Fixpoint bucle (evs : list Evento) : M Curso :=
  match evs with
  | [] => ret Corriendo
  | Ctrl_C :: _ => lanzar KeyboardInterrupt
  | Vuelta e :: evs' =>
      c <~ iteracion e ;;
      match c with
      | Romper => ret Salio
      | Seguir => bucle evs'
      end
  end.

Definition linea : string := repetir 70 "=".

(** The [for] of line 199. *)
Definition imprimir_eventos (eventos : list string) : M unit :=
  para_cada (λ _ evento, print ("  " +:+ evento)) eventos tt.

(** The [finally] block (lines 185-203). *)
Definition finalizar : M unit :=
  efecto CapRelease ;;;
  efecto DestroyAllWindows ;;;
  print (nl +:+ linea) ;;;
  print "📊 RESUMEN DE LA SESIÓN" ;;;
  print linea ;;;
  st <~ leer ;;
  print ("Total de alertas generadas: " +:+ str_int (alertas_totales st)) ;;;
  print ("Eventos únicos registrados: "
           +:+ str_int (Z.of_nat (length (log_eventos st)))) ;;;
  (match log_eventos st with
   | _ :: _ =>
       print (nl +:+ "📋 Últimos 10 eventos:") ;;;
       imprimir_eventos (ultimos 10 (log_eventos st))
   | [] => ret tt
   end) ;;;
  print (nl +:+ "✅ Sistema detenido correctamente") ;;;
  print linea.

(** [try: while ... except KeyboardInterrupt: ... finally: ...].  While
    the loop is still running nothing of the handlers has run. *)
Definition sesion (evs : list Evento) : M Curso :=
  λ st,
    match bucle evs st with
    | (Val Corriendo, st') => (Val Corriendo, st')
    | (Val Salio, st') => (finalizar ;;; ret Salio) st'
    | (Exc KeyboardInterrupt, st') =>
        (print (nl +:+ "⚠️ Interrupción por teclado detectada") ;;;
         finalizar ;;; ret Salio) st'
    | (Exc ex, st') => (finalizar ;;; lanzar ex) st'
    end.

(** *** The whole script *)

Definition imprimir_lineas (ls : list string) : M unit :=
  para_cada (λ _ s, print s) ls tt.

Definition arranque : M unit :=
  print linea ;;;
  print "🎥 SISTEMA DE SEGURIDAD PARA ESTADIOS - ECUADOR" ;;;
  print linea ;;;
  print "📦 Cargando modelo YOLOv8..." ;;;
  print ("✅ Modelo cargado correctamente" +:+ nl) ;;;
  imprimir_lineas (escanear_clases names).2 ;;;
  print (nl +:+ linea) ;;;
  print "⌨️ CONTROLES:" ;;;
  print "   'q' → Salir del sistema" ;;;
  print "   's' → Guardar captura de pantalla" ;;;
  print "   'r' → Resetear contador de alertas" ;;;
  print (linea +:+ nl).

Definition sin_camara : M Curso :=
  print "❌ ERROR: No se pudo acceder a la cámara" ;;;
  print (nl +:+ "💡 Soluciones:") ;;;
  print "   1. Verifica que tu webcam esté conectada" ;;;
  print "   2. Cierra otras aplicaciones que usen la cámara (Zoom, Teams, etc.)" ;;;
  print "   3. Verifica los permisos de la cámara en Windows" ;;;
  lanzar SystemExit.

(** [isOpened] is [cap.isOpened()]; [t0] is [time.time()] at line 63. *)
Definition programa (isOpened : bool) (t0 : Q) (evs : list Evento)
  : Res Curso * Estado :=
  (arranque ;;;
   if isOpened then
     efecto (CapSet "CAP_PROP_FRAME_WIDTH" 1280) ;;;
     efecto (CapSet "CAP_PROP_FRAME_HEIGHT" 720) ;;;
     print ("✅ Cámara activada - Iniciando detección..." +:+ nl) ;;;
     sesion evs
   else sin_camara) (estado_inicial t0).

(** *** Derived descriptions used in the statements *)

(** The contract of the external predictor: every box it returns has
    at least the confidence it was asked for. *)
Definition respeta_umbral : Prop :=
  ∀ frame c r box, r ∈ predict frame c → box ∈ boxes r → (c <= conf box)%Q.

(** Lines 136-138 on the log alone. *)
Definition anotar (evento : string) (log : list string) : list string :=
  if esta_en evento (ultimos 5 log) then log else log ++ [evento].

(** The binding of [frame_anotado] after the loop of line 89: the plot
    of the last result, or the previous binding when there is none. *)
Definition frame_tras_deteccion (frame : Frame) (previo : option Imagen)
  : option Imagen :=
  match last (predict frame umbral) with
  | Some r => Some {| pixeles := plot r; trazos := [] |}
  | None => previo
  end.

(** The shutdown summary as the specification words it: release the
    camera, close the windows, print the totals and then the last ten
    log lines. *)
Definition resumen_esperado (total : Z) (log : list string) : list Efecto :=
  [CapRelease; DestroyAllWindows;
   Consola (nl +:+ linea); Consola "📊 RESUMEN DE LA SESIÓN"; Consola linea;
   Consola ("Total de alertas generadas: " +:+ str_int total);
   Consola ("Eventos únicos registrados: " +:+ str_int (Z.of_nat (length log)))]
  ++ match log with
     | [] => []
     | _ :: _ =>
         Consola (nl +:+ "📋 Últimos 10 eventos:")
           :: map (λ evento, Consola ("  " +:+ evento)) (ultimos 10 log)
     end
  ++ [Consola (nl +:+ "✅ Sistema detenido correctamente"); Consola linea].


(** What one detection owes to the box it was built from. *)
Definition viene_de (d : Deteccion) (box : Box) : Prop :=
  names !! cls box = Some (nombre d) ∧
  OBJETOS_PELIGROSOS !! nombre d = Some (alerta d) ∧
  confianza d = conf box ∧ bbox d = xyxy box.

(** The drawing calls of the loop of line 123, first chip at [y_pos]. *)
Fixpoint chips (objs : list Deteccion) (y_pos : Z) : list Trazo :=
  match objs with
  | [] => []
  | obj :: objs' =>
      Rectangulo (40, y_pos - 30)
        (40 + fst (getTextSize (texto_chip obj) FONT_HERSHEY_SIMPLEX (8 # 10) 2)
         + 20, y_pos + 10) (0, 100, 255) (-1)
      :: Texto (texto_chip obj) (50, y_pos) FONT_HERSHEY_SIMPLEX (8 # 10)
           (255, 255, 255) 2
      :: chips objs' (y_pos + 50)
  end.

(** The log after the loop of line 123, the first object being the
    [i]-th of the frame. *)
Fixpoint anotar_lista (e : Entrada) (objs : list Deteccion) (i : nat)
  (log : list string) : list string :=
  match objs with
  | [] => log
  | obj :: objs' =>
      anotar_lista e objs' (S i) (anotar (texto_evento (hora e i) obj) log)
  end.

(** The three texts of lines 143-160 on an image of height [h]. *)
Definition rotulos (objs : list Deteccion) (f : Q) (total : Z) (h : Z)
  : list Trazo :=
  [Texto ("FPS: " +:+ formato_fps f) (10, h - 70) FONT_HERSHEY_SIMPLEX
     (7 # 10) (0, 255, 0) 2;
   Texto (estado_de objs).1 (10, h - 40) FONT_HERSHEY_DUPLEX (9 # 10)
     (estado_de objs).2 2;
   Texto ("Total alertas: " +:+ str_int total) (10, h - 10)
     FONT_HERSHEY_SIMPLEX (7 # 10) (255, 255, 255) 2].

(** An image with more drawing calls on it. *)
Definition con_trazos (img : Imagen) (ts : list Trazo) : Imagen :=
  {| pixeles := pixeles img; trazos := trazos img ++ ts |}.

(** *** Further descriptions *)

(** The record lines 99-108 build for a box of a dangerous class; no
    record for a box of any other class. *)
Definition deteccion_de (box : Box) : option Deteccion :=
  if bool_decide (cls box ∈ clases_peligrosas_ids names) then
    nombre_clase ← names !! cls box;
    texto ← OBJETOS_PELIGROSOS !! nombre_clase;
    Some {| nombre := nombre_clase; alerta := texto;
            confianza := conf box; bbox := xyxy box |}
  else None.

(** The start-up line printed for a selected class id. *)
Definition linea_de_clase (idx : Z) (s : string) : Prop :=
  ∃ nombre_clase texto,
    names !! idx = Some nombre_clase ∧
    OBJETOS_PELIGROSOS !! nombre_clase = Some texto ∧
    s = "✓ Detectando: " +:+ texto.

(** The console line of line 137. *)
Definition aviso (evento : string) : Efecto := Consola ("🚨 " +:+ evento).

(** The lines the loop of line 123 appends to the log. *)
Definition nuevos (e : Entrada) (objs : list Deteccion) (i : nat)
  (log : list string) : list string :=
  drop (length log) (anotar_lista e objs i log).

(** The alert overlay of lines 111-131: nothing without detections,
    else the banner, its text and the chips. *)
Definition superposicion (objs : list Deteccion) : list Trazo :=
  match objs with
  | [] => []
  | _ :: _ =>
      banner
      :: Texto (texto_banner (length objs)) (50, 60) FONT_HERSHEY_DUPLEX
           (9 # 10) (255, 255, 255) 2
      :: chips objs 120
  end.

(** Equal entries of a log lie more than five positions apart. *)
Definition espaciado (log : list string) : Prop :=
  ∀ i j x, (i < j)%nat → log !! i = Some x → log !! j = Some x → (5 < j - i)%nat.

(** The detections of the frame an iteration reads, none when the read
    fails. *)
Definition detecciones_de_entrada (e : Entrada) : list Deteccion :=
  match lectura e with
  | Some frame => omap deteccion_de (concat (map boxes (predict frame umbral)))
  | None => []
  end.

(** The number of detections over the iterations of a run. *)
Fixpoint total_detecciones (evs : list Evento) : Z :=
  match evs with
  | [] => 0
  | Vuelta e :: evs' =>
      Z.of_nat (length (detecciones_de_entrada e)) + total_detecciones evs'
  | Ctrl_C :: evs' => total_detecciones evs'
  end.

(** ** Properties *)

Lemma paso_clase_ids acc item :
  (paso_clase acc item).1 =
  acc.1 ++ (if es_peligroso item.2 then [item.1] else []).
Proof.
  destruct item as [idx nombre]. unfold paso_clase, es_peligroso. simpl.
  destruct (OBJETOS_PELIGROSOS !! nombre) eqn:E.
  - rewrite bool_decide_eq_true_2 by eauto. done.
  - rewrite bool_decide_eq_false_2 by (intros [? ?]; congruence).
    by rewrite app_nil_r.
Qed.

Lemma foldl_paso_clase_ids items acc :
  (foldl paso_clase acc items).1 =
  acc.1 ++ (filter (λ it, es_peligroso it.2 = true) items).*1.
Proof.
  revert acc. induction items as [|it items IH]; intros acc; simpl.
  - by rewrite app_nil_r.
  - rewrite IH, paso_clase_ids, filter_cons.
    destruct (es_peligroso it.2) eqn:E.
    + rewrite decide_True by done. by rewrite <- app_assoc.
    + rewrite decide_False by congruence. by rewrite app_nil_r.
Qed.

Lemma clases_peligrosas_ids_filter :
  clases_peligrosas_ids names =
  (filter (λ it, es_peligroso it.2 = true) (map_to_list names)).*1.
Proof.
  unfold clases_peligrosas_ids, escanear_clases.
  by rewrite foldl_paso_clase_ids.
Qed.

Lemma elem_of_clases_peligrosas_ids (idx : Z) :
  idx ∈ clases_peligrosas_ids names ↔
  ∃ nombre, names !! idx = Some nombre ∧ is_Some (OBJETOS_PELIGROSOS !! nombre).
Proof.
  rewrite clases_peligrosas_ids_filter, list_elem_of_fmap. split.
  - intros [[i n] [-> Hin]]. apply list_elem_of_filter in Hin as [Hp Hin].
    apply elem_of_map_to_list in Hin. exists n. split; [done|].
    unfold es_peligroso in Hp. simpl in Hp. by apply bool_decide_eq_true_1 in Hp.
  - intros (n & Hn & Hk). exists (idx, n). split; [done|].
    apply list_elem_of_filter. split.
    + unfold es_peligroso. simpl. by apply bool_decide_eq_true_2.
    + by apply elem_of_map_to_list.
Qed.

(** C2. For every entry [(idx, nombre)] of the model's class-name table,
    [idx] is in the danger-id list computed at start-up if and only if
    [nombre] is a key of [OBJETOS_PELIGROSOS]. *)
Theorem C2_ids_iff_clave (idx : Z) (nombre : string) :
  names !! idx = Some nombre →
  (idx ∈ clases_peligrosas_ids names ↔ is_Some (OBJETOS_PELIGROSOS !! nombre)).
Proof.
  intros Hn. rewrite elem_of_clases_peligrosas_ids. split.
  - intros (n & Hn' & Hk). congruence.
  - intros Hk. eauto.
Qed.

(** *** The monad *)

Lemma bind_val {A B} (c : M A) (k : A → M B) st a st' :
  c st = (Val a, st') → bind c k st = k a st'.
Proof. intros H. unfold bind. by rewrite H. Qed.

Lemma bind_exc {A B} (c : M A) (k : A → M B) st ex st' :
  c st = (Exc ex, st') → bind c k st = (Exc ex, st').
Proof. intros H. unfold bind. by rewrite H. Qed.

Lemma bind_inv_val {A B} (c : M A) (k : A → M B) st b st' :
  bind c k st = (Val b, st') →
  ∃ a st1, c st = (Val a, st1) ∧ k a st1 = (Val b, st').
Proof.
  unfold bind. destruct (c st) as [[a|ex] st1]; [eauto | discriminate].
Qed.

Lemma con_frame_anotado_id st : con_frame_anotado (frame_anotado st) st = st.
Proof. by destruct st. Qed.

(** A loop whose body never raises and keeps [I] ends normally in [I]. *)
Lemma para_cada_total {A B} (f : B → A → M B) (I : B → Estado → Prop) l :
  (∀ b x st, x ∈ l → I b st → ∃ b' st', f b x st = (Val b', st') ∧ I b' st') →
  ∀ b st, I b st → ∃ b' st', para_cada f l b st = (Val b', st') ∧ I b' st'.
Proof.
  induction l as [|x l IH]; intros Hf b st HI; simpl.
  - by exists b, st.
  - destruct (Hf b x st) as (b1 & st1 & E & HI1); [left | done |].
    rewrite (bind_val _ _ _ _ _ E).
    apply IH; [|done]. intros b2 y st2 Hy. apply Hf. by right.
Qed.

(** *** Detection filter *)

Lemma revisar_box_total objs box st :
  ∃ objs', revisar_box objs box st = (Val objs', st) ∧
    (objs' = objs ∨ ∃ d, objs' = objs ++ [d] ∧ viene_de d box).
Proof.
  unfold revisar_box. case_bool_decide as Hid.
  - apply elem_of_clases_peligrosas_ids in Hid as (n & Hn & [a Ha]).
    rewrite Hn, Ha. eexists. split; [done|]. right. eexists. split; [done|].
    by repeat split.
  - exists objs. split; [done | by left].
Qed.

Lemma revisar_boxes_total bs objs st (P : Deteccion → Prop) :
  Forall P objs →
  (∀ d box, box ∈ bs → viene_de d box → P d) →
  ∃ objs', para_cada revisar_box bs objs st = (Val objs', st) ∧ Forall P objs'.
Proof.
  intros HP Hbs.
  destruct (para_cada_total revisar_box
              (λ o s, s = st ∧ Forall P o) bs) with (b := objs) (st := st)
    as (o' & s' & E & -> & HP'); [|done|eauto].
  intros o box s Hbox [-> Ho].
  destruct (revisar_box_total o box st) as (o1 & E & [->|(d & -> & Hd)]).
  - eauto.
  - exists (o ++ [d]), st. split; [done|]. split; [done|].
    apply Forall_app. split; [done|]. apply Forall_singleton. eauto.
Qed.

Lemma revisar_resultados_total rs objs st (P : Deteccion → Prop) :
  Forall P objs →
  (∀ d r box, r ∈ rs → box ∈ boxes r → viene_de d box → P d) →
  ∃ objs',
    para_cada revisar_resultado rs objs st =
      (Val objs',
       con_frame_anotado
         (match last rs with
          | Some r => Some {| pixeles := plot r; trazos := [] |}
          | None => frame_anotado st
          end) st)
    ∧ Forall P objs'.
Proof.
  revert objs st. induction rs as [|r rs IH]; intros objs st HP Hrs.
  - exists objs. simpl. unfold ret. rewrite con_frame_anotado_id. by split.
  - simpl. unfold revisar_resultado at 1, bind at 1, modificar. simpl.
    unfold bind at 1.
    edestruct (revisar_boxes_total (boxes r) objs) as (o1 & E & HP1);
      [exact HP | |].
    { intros d box Hbox. apply (Hrs d r box); [by left | done]. }
    rewrite E.
    edestruct (IH o1) as (o2 & E2 & HP2); [exact HP1 | |].
    { intros d r' box Hr'. apply Hrs. by right. }
    rewrite E2. exists o2. split; [|done]. f_equal.
    destruct rs as [|r' rs']; [done|].
    rewrite last_cons_cons. destruct (last (r' :: rs')) eqn:El; [done|].
    by apply last_None in El.
Qed.

Lemma deteccion_total frame st (P : Deteccion → Prop) :
  (∀ d r box, r ∈ predict frame umbral → box ∈ boxes r → viene_de d box → P d) →
  ∃ objs,
    deteccion frame st =
      (Val objs,
       con_frame_anotado (frame_tras_deteccion frame (frame_anotado st)) st)
    ∧ Forall P objs.
Proof.
  intros HP. unfold deteccion, frame_tras_deteccion.
  by apply revisar_resultados_total.
Qed.

(** C1. The filter never raises, and every detection it appends to the
    frame's list carries a class name that is a key of
    [OBJETOS_PELIGROSOS] and the confidence of a box the predictor
    returned for the threshold 0.3; so, the predictor honouring the
    threshold it is given, a confidence of at least 0.3. *)
Theorem C1_detecciones_filtradas (frame : Frame) (st : Estado) :
  ∃ objs st',
    deteccion frame st = (Val objs, st') ∧
    (∀ d, d ∈ objs →
       is_Some (OBJETOS_PELIGROSOS !! nombre d) ∧
       ∃ r box, r ∈ predict frame (3 # 10) ∧ box ∈ boxes r ∧
                confianza d = conf box) ∧
    (respeta_umbral → ∀ d, d ∈ objs → (3 # 10 <= confianza d)%Q).
Proof.
  destruct (deteccion_total frame st
    (λ d, is_Some (OBJETOS_PELIGROSOS !! nombre d) ∧
          ∃ r box, r ∈ predict frame (3 # 10) ∧ box ∈ boxes r ∧
                   confianza d = conf box))
    as (objs & E & HP).
  - intros d r box Hr Hbox (_ & Ha & Hc & _). split; [eauto|].
    exists r, box. by repeat split.
  - exists objs. eexists. split; [exact E|].
    rewrite Forall_forall in HP. split; [exact HP|].
    intros Hpred d Hd. destruct (HP d Hd) as (_ & r & box & Hr & Hbox & ->).
    exact (Hpred frame (3 # 10) r box Hr Hbox).
Qed.

(** *** The trailing window and the event log *)





Lemma registrar_anotar evento st :
  registrar evento st =
    (Val tt,
     if esta_en evento (ultimos 5 (log_eventos st)) then st
     else con_log_eventos (anotar evento (log_eventos st))
            (con_traza (traza st ++ [Consola ("🚨 " +:+ evento)]) st)).
Proof.
  unfold registrar, anotar, bind, leer, ret, print, efecto, modificar. simpl.
  by destruct (esta_en evento (ultimos 5 (log_eventos st))).
Qed.


Lemma anotar_repetido evento log :
  evento ∈ ultimos 5 log → anotar evento log = log.
Proof.
  intros H. unfold anotar, esta_en. by rewrite bool_decide_eq_true_2.
Qed.



(** *** FPS counter *)

Lemma calcular_fps_campos e st r st' :
  calcular_fps e st = (r, st') →
  alertas_totales st' = alertas_totales st ∧
  log_eventos st' = log_eventos st ∧
  frame_anotado st' = frame_anotado st ∧
  traza st' = traza st.
Proof.
  unfold calcular_fps, bind, leer, modificar, lanzar. simpl.
  destruct (30 <=? frame_count st + 1)%Z;
    [destruct (Qeq_bool _ _)|]; intros E; by simplify_eq.
Qed.

(** *** Drawing *)

Lemma dibujar_val t st img :
  frame_anotado st = Some img →
  dibujar t st = (Val tt, con_frame_anotado (Some (con_trazos img [t])) st).
Proof. intros H. unfold dibujar, bind, leer, modificar. simpl. by rewrite H. Qed.


Lemma con_trazos_app img ts1 ts2 :
  con_trazos (con_trazos img ts1) ts2 = con_trazos img (ts1 ++ ts2).
Proof. unfold con_trazos. simpl. by rewrite app_assoc. Qed.

Lemma registrar_campos evento st :
  ∃ st',
    registrar evento st = (Val tt, st') ∧
    log_eventos st' = anotar evento (log_eventos st) ∧
    alertas_totales st' = alertas_totales st ∧
    frame_anotado st' = frame_anotado st ∧
    fps st' = fps st.
Proof.
  eexists. split; [apply registrar_anotar|]. unfold anotar.
  by destruct (esta_en evento (ultimos 5 (log_eventos st))).
Qed.

Lemma listar_objeto_val e y i obj st img :
  frame_anotado st = Some img →
  ∃ st',
    listar_objeto e (y, i) obj st = (Val ((y + 50)%Z, S i), st') ∧
    frame_anotado st' = Some (con_trazos img (chips [obj] y)) ∧
    log_eventos st' = anotar (texto_evento (hora e i) obj) (log_eventos st) ∧
    alertas_totales st' = alertas_totales st ∧
    fps st' = fps st.
Proof.
  intros Himg. unfold listar_objeto.
  erewrite bind_val by (by apply dibujar_val).
  erewrite bind_val by (by apply dibujar_val).
  destruct (registrar_campos (texto_evento (hora e i) obj)
    (con_frame_anotado (Some (con_trazos (con_trazos img
       [Rectangulo (40, y - 30)
          (40 + (getTextSize (texto_chip obj) FONT_HERSHEY_SIMPLEX (8 # 10) 2).1
           + 20, y + 10) (0, 100, 255) (-1)])
       [Texto (texto_chip obj) (50, y) FONT_HERSHEY_SIMPLEX (8 # 10)
          (255, 255, 255) 2]))
       (con_frame_anotado (Some (con_trazos img
       [Rectangulo (40, y - 30)
          (40 + (getTextSize (texto_chip obj) FONT_HERSHEY_SIMPLEX (8 # 10) 2).1
           + 20, y + 10) (0, 100, 255) (-1)])) st)))
    as (st' & E & Hlog & Hal & Hfr & Hfps).
  erewrite bind_val by exact E. exists st'. split; [done|].
  rewrite Hlog, Hal, Hfr, Hfps. simpl. by rewrite con_trazos_app.
Qed.

Lemma listar_objetos_val e objs : ∀ y i st img,
  frame_anotado st = Some img →
  ∃ st',
    para_cada (listar_objeto e) objs (y, i) st =
      (Val ((y + 50 * Z.of_nat (length objs))%Z, (i + length objs)%nat), st') ∧
    frame_anotado st' = Some (con_trazos img (chips objs y)) ∧
    log_eventos st' = anotar_lista e objs i (log_eventos st) ∧
    alertas_totales st' = alertas_totales st ∧
    fps st' = fps st.
Proof.
  induction objs as [|obj objs IH]; intros y i st img Himg.
  - exists st. simpl. unfold ret, con_trazos. rewrite app_nil_r, Himg.
    repeat split; try done.
    + do 3 f_equal; lia.
    + by destruct img.
  - destruct (listar_objeto_val e y i obj st img Himg)
      as (st1 & E1 & Hfr1 & Hlog1 & Hal1 & Hfps1).
    destruct (IH (y + 50)%Z (S i) st1 _ Hfr1)
      as (st2 & E2 & Hfr2 & Hlog2 & Hal2 & Hfps2).
    exists st2. simpl para_cada. erewrite bind_val by exact E1.
    rewrite E2, Hfr2, Hlog2, Hal2, Hfps2, Hlog1, Hal1, Hfps1.
    rewrite con_trazos_app. repeat split; try done.
    rewrite length_cons. do 3 f_equal; lia.
Qed.

Lemma alertas_val e objs st img :
  frame_anotado st = Some img → objs ≠ [] →
  ∃ st',
    alertas e objs st = (Val tt, st') ∧
    frame_anotado st' =
      Some (con_trazos img
              (banner
               :: Texto (texto_banner (length objs)) (50, 60)
                    FONT_HERSHEY_DUPLEX (9 # 10) (255, 255, 255) 2
               :: chips objs 120)) ∧
    log_eventos st' = anotar_lista e objs 0 (log_eventos st) ∧
    alertas_totales st' = (alertas_totales st + Z.of_nat (length objs))%Z ∧
    fps st' = fps st.
Proof.
  intros Himg Hne. unfold alertas. destruct objs as [|o objs]; [done|].
  set (os := o :: objs). unfold bind at 1, modificar.
  erewrite bind_val by (by apply dibujar_val).
  erewrite bind_val by (by apply dibujar_val).
  edestruct (listar_objetos_val e os 120 O) as (st' & E & Hfr & Hlog & Hal & Hfps);
    [|erewrite bind_val by exact E]; [done|].
  exists st'. split; [done|]. rewrite Hfr, Hlog, Hal, Hfps. simpl.
  rewrite !con_trazos_app. done.
Qed.

Lemma informacion_val objs st img :
  frame_anotado st = Some img →
  informacion objs st =
    (Val tt,
     let img' := con_trazos img
                   (rotulos objs (fps st) (alertas_totales st) (alto img)) in
     con_traza (traza st ++ [Imshow ventana img'])
       (con_frame_anotado (Some img') st)).
Proof.
  intros Himg. unfold informacion. unfold bind at 1, leer. rewrite Himg.
  erewrite bind_val by (by apply dibujar_val).
  destruct (estado_de objs) as [estado color] eqn:Ees.
  erewrite bind_val by (by apply dibujar_val).
  erewrite bind_val by (by apply dibujar_val).
  unfold bind, leer, efecto, modificar. simpl.
  rewrite !con_trazos_app. unfold rotulos. rewrite Ees. done.
Qed.

Lemma informacion_exc objs st :
  frame_anotado st = None → informacion objs st = (Exc NameError, st).
Proof. intros H. unfold informacion, bind, leer, lanzar. by rewrite H. Qed.

(** *** One processed frame *)

(** The stages of a frame that reached the display. *)
Lemma procesar_frame_val frame e st objs st' :
  procesar_frame frame e st = (Val objs, st') →
  ∃ st1 st2 st3,
    calcular_fps e st = (Val tt, st1) ∧
    deteccion frame st1 = (Val objs, st2) ∧
    alertas e objs st2 = (Val tt, st3) ∧
    informacion objs st3 = (Val tt, st').
Proof.
  unfold procesar_frame. intros H.
  apply bind_inv_val in H as ([] & st1 & E1 & H).
  apply bind_inv_val in H as (objs' & st2 & E2 & H).
  apply bind_inv_val in H as ([] & st3 & E3 & H).
  apply bind_inv_val in H as ([] & st4 & E4 & H).
  unfold ret in H. injection H as -> ->. eauto 10.
Qed.

Lemma deteccion_estado frame st objs st' :
  deteccion frame st = (Val objs, st') →
  st' = con_frame_anotado (frame_tras_deteccion frame (frame_anotado st)) st ∧
  (objs ≠ [] → predict frame umbral ≠ []).
Proof.
  intros E.
  destruct (deteccion_total frame st (λ _, predict frame umbral ≠ []))
    as (objs' & E' & HP).
  - intros _ r _ Hr _ _ Hnil. rewrite Hnil in Hr. by apply elem_of_nil in Hr.
  - rewrite E in E'. injection E' as <- ->. split; [done|].
    intros Hne. destruct objs as [|d ?]; [done|]. by inversion HP.
Qed.

Lemma frame_tras_deteccion_nuevo frame previo :
  predict frame umbral ≠ [] →
  ∃ r, last (predict frame umbral) = Some r ∧
       frame_tras_deteccion frame previo
         = Some {| pixeles := plot r; trazos := [] |}.
Proof.
  intros Hne. apply last_is_Some in Hne as [r Hr]. exists r.
  unfold frame_tras_deteccion. by rewrite Hr.
Qed.

(** C7. A processed frame with no qualifying detection: the drawing
    calls made on the annotated image are the FPS text, the green
    [ZONA SEGURA] status line and the total, and nothing else; the image
    shown carries no banner when the model produced a result for the
    frame; the alert counter and the log are as before the frame. *)
Theorem C7_zona_segura (frame : Frame) (e : Entrada) (st st' : Estado) :
  procesar_frame frame e st = (Val [], st') →
  ∃ img0 img,
    frame_tras_deteccion frame (frame_anotado st) = Some img0 ∧
    img = con_trazos img0
      [Texto ("FPS: " +:+ formato_fps (fps st')) (10, alto img0 - 70)
         FONT_HERSHEY_SIMPLEX (7 # 10) (0, 255, 0) 2;
       Texto "🟢 ZONA SEGURA" (10, alto img0 - 40)
         FONT_HERSHEY_DUPLEX (9 # 10) (0, 255, 0) 2;
       Texto ("Total alertas: " +:+ str_int (alertas_totales st))
         (10, alto img0 - 10) FONT_HERSHEY_SIMPLEX (7 # 10) (255, 255, 255) 2] ∧
    frame_anotado st' = Some img ∧
    traza st' = traza st ++ [Imshow ventana img] ∧
    (predict frame umbral ≠ [] → banner ∉ trazos img) ∧
    alertas_totales st' = alertas_totales st ∧
    log_eventos st' = log_eventos st.
Proof.
  intros H. apply procesar_frame_val in H as (st1 & st2 & st3 & E1 & E2 & E3 & E4).
  apply calcular_fps_campos in E1 as (Hal1 & Hlog1 & Hfr1 & Htr1).
  apply deteccion_estado in E2 as [-> _].
  unfold alertas, ret in E3. simplify_eq. rewrite Hfr1 in E4.
  destruct (frame_tras_deteccion frame (frame_anotado st)) as [img0|] eqn:Hfr.
  2: { rewrite informacion_exc in E4 by done. discriminate. }
  rewrite (informacion_val [] _ img0) in E4 by done. simplify_eq.
  exists img0. eexists. split; [done|]. split; [reflexivity|].
  simpl. rewrite Hal1, Hlog1, Htr1. repeat split; try done.
  intros Hne. destruct (frame_tras_deteccion_nuevo frame (frame_anotado st) Hne)
    as (r & _ & Hr).
  rewrite Hr in Hfr. simplify_eq. simpl. unfold banner.
  rewrite !elem_of_cons, elem_of_nil. intros [?|[?|[?|[]]]]; discriminate.
Qed.

(** C8. A processed frame with exactly two qualifying detections: the
    annotated image is the last result's plot with, in order, the red
    banner, the banner text with the count 2, one chip per detection at
    heights 120 and 170 (50 apart), and the three information texts with
    the red status line; the alert counter has grown by exactly 2; the
    log has received each of the two event lines unless the line was
    among the last five entries at that moment. *)
Theorem C8_dos_detecciones (frame : Frame) (e : Entrada) (st st' : Estado)
    (d1 d2 : Deteccion) :
  procesar_frame frame e st = (Val [d1; d2], st') →
  ∃ r,
    last (predict frame umbral) = Some r ∧
    let h := Z.of_nat (length (plot r)) in
    let ancho obj :=
      fst (getTextSize (texto_chip obj) FONT_HERSHEY_SIMPLEX (8 # 10) 2) in
    frame_anotado st' = Some
      {| pixeles := plot r;
         trazos :=
           [Rectangulo (40, 20) (1240, 80) (0, 0, 255) (-1);
            Texto "ALERTA: 2 OBJETO(S) PELIGROSO(S) DETECTADO(S)" (50, 60)
              FONT_HERSHEY_DUPLEX (9 # 10) (255, 255, 255) 2;
            Rectangulo (40, 90) (40 + ancho d1 + 20, 130) (0, 100, 255) (-1);
            Texto (texto_chip d1) (50, 120) FONT_HERSHEY_SIMPLEX (8 # 10)
              (255, 255, 255) 2;
            Rectangulo (40, 140) (40 + ancho d2 + 20, 180) (0, 100, 255) (-1);
            Texto (texto_chip d2) (50, 170) FONT_HERSHEY_SIMPLEX (8 # 10)
              (255, 255, 255) 2;
            Texto ("FPS: " +:+ formato_fps (fps st')) (10, h - 70)
              FONT_HERSHEY_SIMPLEX (7 # 10) (0, 255, 0) 2;
            Texto "🔴 ALERTA ACTIVA" (10, h - 40)
              FONT_HERSHEY_DUPLEX (9 # 10) (0, 0, 255) 2;
            Texto ("Total alertas: " +:+ str_int (alertas_totales st + 2))
              (10, h - 10) FONT_HERSHEY_SIMPLEX (7 # 10) (255, 255, 255) 2] |} ∧
    alertas_totales st' = (alertas_totales st + 2)%Z ∧
    log_eventos st' =
      anotar (texto_evento (hora e 1) d2)
        (anotar (texto_evento (hora e 0) d1) (log_eventos st)).
Proof.
  intros H. apply procesar_frame_val in H as (st1 & st2 & st3 & E1 & E2 & E3 & E4).
  apply calcular_fps_campos in E1 as (Hal1 & Hlog1 & Hfr1 & Htr1).
  apply deteccion_estado in E2 as [-> Hne].
  destruct (frame_tras_deteccion_nuevo frame (frame_anotado st1))
    as (r & Hlast & Hr); [by apply Hne|].
  exists r. split; [done|].
  destruct (alertas_val e [d1; d2]
              (con_frame_anotado (frame_tras_deteccion frame (frame_anotado st1)) st1)
              {| pixeles := plot r; trazos := [] |})
    as (st3' & E3' & Hfr3 & Hlog3 & Hal3 & Hfps3); [by rewrite Hr | done |].
  rewrite E3 in E3'. simplify_eq.
  rewrite (informacion_val _ _ _ Hfr3) in E4. simplify_eq.
  simpl. rewrite Hal3, Hlog3, Hfps3. simpl. rewrite Hal1, Hlog1.
  repeat split; try done.
Qed.

(** *** The annotated frame *)

(** With at least one result object, boxes or not, the annotated frame
    of the iteration is the plot of the last result. *)
Lemma frame_anotado_definido frame st :
  predict frame umbral ≠ [] →
  ∃ objs r,
    last (predict frame umbral) = Some r ∧
    deteccion frame st =
      (Val objs,
       con_frame_anotado (Some {| pixeles := plot r; trazos := [] |}) st).
Proof.
  intros Hne. destruct (deteccion_total frame st (λ _, True)) as (objs & E & _);
    [done|].
  destruct (frame_tras_deteccion_nuevo frame (frame_anotado st) Hne)
    as (r & Hlast & Hr).
  exists objs, r. split; [done|]. by rewrite E, Hr.
Qed.

(** So a frame for which the model yields a result reaches the display,
    unless the FPS update divides by zero. *)
Lemma procesar_frame_llega frame e st st1 :
  calcular_fps e st = (Val tt, st1) →
  predict frame umbral ≠ [] →
  ∃ objs st', procesar_frame frame e st = (Val objs, st').
Proof.
  intros E1 Hne. unfold procesar_frame. erewrite bind_val by exact E1.
  destruct (frame_anotado_definido frame st1 Hne) as (objs & r & _ & E2).
  erewrite bind_val by exact E2. exists objs.
  destruct objs as [|o objs].
  - unfold alertas. erewrite bind_val by done.
    erewrite bind_val by (by apply informacion_val). by eexists.
  - edestruct (alertas_val e (o :: objs)) as (st3 & E3 & Hfr3 & _);
      [| |erewrite bind_val by exact E3]; [done | done |].
    erewrite bind_val by (by eapply informacion_val). by eexists.
Qed.

(** With no result object the name keeps its previous binding: the
    image already shown for the previous frame, overlays included. *)
Lemma frame_anotado_arrastrado frame st :
  predict frame umbral = [] → deteccion frame st = (Val [], st).
Proof.
  intros Hnil. unfold deteccion. rewrite Hnil. done.
Qed.

(** With no result object and no previous binding the frame ends in an
    uncaught [NameError] at line 141. *)
Lemma frame_anotado_indefinido frame e st st1 :
  predict frame umbral = [] → frame_anotado st = None →
  calcular_fps e st = (Val tt, st1) →
  procesar_frame frame e st = (Exc NameError, st1).
Proof.
  intros Hnil Hnone E1. unfold procesar_frame.
  erewrite bind_val by exact E1.
  erewrite bind_val by (by apply frame_anotado_arrastrado).
  unfold alertas. erewrite bind_val by done.
  apply calcular_fps_campos in E1 as (_ & _ & Hfr & _).
  apply bind_exc. apply informacion_exc. congruence.
Qed.

(** *** Keyboard controls *)

Lemma controles_reset e st :
  Z.land (tecla e) 255 = ord "r"%char →
  controles e st =
    (Val Seguir,
     con_traza (traza st ++ [Consola "🔄 Contador de alertas reseteado"])
       (con_log_eventos [] (con_alertas_totales 0 st))).
Proof. intros Hk. unfold controles. rewrite Hk. done. Qed.

Lemma controles_quit e st :
  Z.land (tecla e) 255 = ord "q"%char →
  controles e st =
    (Val Romper,
     con_traza
       (traza st ++ [Consola (nl +:+ "🛑 Deteniendo sistema de detección...")]) st).
Proof. intros Hk. unfold controles. rewrite Hk. done. Qed.

(** Whatever the key and the outcome, the controls either leave the
    counter and the log alone or set them to zero and empty together. *)
Lemma controles_contadores e st r st' :
  controles e st = (r, st') →
  (alertas_totales st' = alertas_totales st ∧ log_eventos st' = log_eventos st)
  ∨ (alertas_totales st' = 0 ∧ log_eventos st' = []).
Proof.
  unfold controles.
  destruct (Z.land (tecla e) 255 =? ord "q"%char)%Z.
  { intros E. injection E as <- <-. by left. }
  destruct (Z.land (tecla e) 255 =? ord "s"%char)%Z.
  { unfold bind, leer. destruct (frame_anotado st); intros E;
      injection E as <- <-; by left. }
  destruct (Z.land (tecla e) 255 =? ord "r"%char)%Z;
    intros E; injection E as <- <-; [by right | by left].
Qed.

(** C4. Processing the reset key always succeeds, continues the loop and
    leaves the alert counter at 0 and the whole event log empty,
    whatever they held; this is the state in which an iteration that
    reached the keyboard poll ends. *)
Theorem C4_reset (e : Entrada) (st : Estado) :
  Z.land (tecla e) 255 = ord "r"%char →
  ∃ st',
    controles e st = (Val Seguir, st') ∧
    alertas_totales st' = 0 ∧
    log_eventos st' = [] ∧
    ∀ st0 frame objs,
      lectura e = Some frame →
      procesar_frame frame e st0 = (Val objs, st) →
      iteracion e st0 = (Val Seguir, st').
Proof.
  intros Hk. eexists. split; [by apply controles_reset|].
  split; [done|]. split; [done|].
  intros st0 frame objs Hl Hp. unfold iteracion. rewrite Hl.
  erewrite bind_val by exact Hp. by apply controles_reset.
Qed.

(** *** The loop and the session *)

Lemma bucle_app evs evs' st st1 :
  bucle evs st = (Val Corriendo, st1) →
  bucle (evs ++ evs') st = bucle evs' st1.
Proof.
  revert st. induction evs as [|[e|] evs IH]; intros st; simpl.
  - unfold ret. intros E. by injection E as ->.
  - unfold bind. destruct (iteracion e st) as [[[]|] st2]; simpl.
    + apply IH.
    + unfold ret. discriminate.
    + discriminate.
  - unfold lanzar. discriminate.
Qed.

Lemma imprimir_eventos_val eventos st :
  imprimir_eventos eventos st =
    (Val tt,
     con_traza (traza st ++ map (λ evento, Consola ("  " +:+ evento)) eventos) st).
Proof.
  unfold imprimir_eventos. revert st.
  induction eventos as [|ev eventos IH]; intros st; simpl.
  - unfold ret. rewrite app_nil_r. by destruct st.
  - unfold bind at 1, print, efecto, modificar. rewrite IH. simpl.
    by rewrite <- app_assoc.
Qed.

Lemma finalizar_val st :
  finalizar st =
    (Val tt,
     con_traza
       (traza st ++ resumen_esperado (alertas_totales st) (log_eventos st)) st).
Proof.
  unfold finalizar, resumen_esperado, bind, print, efecto, modificar, leer, ret.
  simpl. destruct (log_eventos st) as [|ev log] eqn:Hlog; simpl.
  - by rewrite <- !app_assoc.
  - rewrite imprimir_eventos_val. simpl. by rewrite <- !app_assoc.
Qed.

Lemma sesion_capture_failure evs e resto st st1 :
  bucle evs st = (Val Corriendo, st1) → lectura e = None →
  sesion (evs ++ Vuelta e :: resto) st =
    (Val Salio,
     con_traza
       (traza st1 ++ Consola "❌ Error al capturar frame"
          :: resumen_esperado (alertas_totales st1) (log_eventos st1)) st1).
Proof.
  intros Hb Hl. unfold sesion. rewrite (bucle_app _ _ _ _ Hb). simpl.
  unfold iteracion. rewrite Hl.
  unfold bind at 1. unfold bind at 1. unfold print, efecto, modificar, ret.
  unfold bind. rewrite finalizar_val. simpl. by rewrite <- app_assoc.
Qed.

Lemma sesion_quit evs e resto frame objs st st1 st2 :
  bucle evs st = (Val Corriendo, st1) →
  lectura e = Some frame →
  procesar_frame frame e st1 = (Val objs, st2) →
  Z.land (tecla e) 255 = ord "q"%char →
  sesion (evs ++ Vuelta e :: resto) st =
    (Val Salio,
     con_traza
       (traza st2 ++ Consola (nl +:+ "🛑 Deteniendo sistema de detección...")
          :: resumen_esperado (alertas_totales st2) (log_eventos st2)) st2).
Proof.
  intros Hb Hl Hp Hk. unfold sesion. rewrite (bucle_app _ _ _ _ Hb). simpl.
  unfold iteracion. rewrite Hl.
  unfold bind at 1. erewrite bind_val by exact Hp.
  rewrite controles_quit by done.
  unfold ret, bind. rewrite finalizar_val. simpl. by rewrite <- app_assoc.
Qed.

Lemma sesion_interrupt evs resto st st1 :
  bucle evs st = (Val Corriendo, st1) →
  sesion (evs ++ Ctrl_C :: resto) st =
    (Val Salio,
     con_traza
       (traza st1 ++ Consola (nl +:+ "⚠️ Interrupción por teclado detectada")
          :: resumen_esperado (alertas_totales st1) (log_eventos st1)) st1).
Proof.
  intros Hb. unfold sesion. rewrite (bucle_app _ _ _ _ Hb). simpl.
  unfold lanzar, bind, print, efecto, modificar, ret.
  rewrite finalizar_val. simpl. by rewrite <- app_assoc.
Qed.


(** The three handled ways out of the loop do end the session. *)
Lemma salidas_de_sesion evs st st1 :
  bucle evs st = (Val Corriendo, st1) →
  (∀ resto, (sesion (evs ++ Ctrl_C :: resto) st).1 = Val Salio) ∧
  (∀ e resto, lectura e = None →
     (sesion (evs ++ Vuelta e :: resto) st).1 = Val Salio) ∧
  (∀ e resto frame objs st2,
     lectura e = Some frame →
     procesar_frame frame e st1 = (Val objs, st2) →
     Z.land (tecla e) 255 = ord "q"%char →
     (sesion (evs ++ Vuelta e :: resto) st).1 = Val Salio).
Proof.
  intros Hb. split; [|split].
  - intros resto. by rewrite (sesion_interrupt _ resto _ _ Hb).
  - intros e resto Hl. by rewrite (sesion_capture_failure _ e resto _ _ Hb Hl).
  - intros e resto frame objs st2 Hl Hp Hk.
    by rewrite (sesion_quit _ e resto _ _ _ _ _ Hb Hl Hp Hk).
Qed.


(** C9. When a read fails in mid-session the iteration prints the error
    and breaks; the session then ends normally with the shutdown summary
    on the counters as they stood, whatever events might have followed:
    there is no second read. *)
Theorem C9_fallo_de_captura (evs : list Evento) (e : Entrada)
    (st st1 : Estado) :
  bucle evs st = (Val Corriendo, st1) → lectura e = None →
  iteracion e st1 =
    (Val Romper, con_traza (traza st1 ++ [Consola "❌ Error al capturar frame"]) st1)
  ∧ ∀ resto,
      sesion (evs ++ Vuelta e :: resto) st =
        (Val Salio,
         con_traza
           (traza st1 ++ Consola "❌ Error al capturar frame"
              :: resumen_esperado (alertas_totales st1) (log_eventos st1)) st1).
Proof.
  intros Hb Hl. split.
  - unfold iteracion. by rewrite Hl.
  - intros resto. by apply sesion_capture_failure.
Qed.

(** *** The counter and the log *)










Lemma imprimir_lineas_val ls st :
  imprimir_lineas ls st = (Val tt, con_traza (traza st ++ map Consola ls) st).
Proof.
  unfold imprimir_lineas. revert st.
  induction ls as [|s ls IH]; intros st; simpl.
  - unfold ret. rewrite app_nil_r. by destruct st.
  - unfold bind at 1, print, efecto, modificar. rewrite IH. simpl.
    by rewrite <- app_assoc.
Qed.




(** ** Further properties of the script *)

(** *** The filter as a function of the boxes *)

Lemma deteccion_de_viene_de box d : deteccion_de box = Some d → viene_de d box.
Proof.
  unfold deteccion_de, viene_de. case_bool_decide; [|done].
  destruct (names !! cls box) as [n|] eqn:Hn; [|done]. simpl.
  destruct (OBJETOS_PELIGROSOS !! n) as [a|] eqn:Ha; [|done]. simpl.
  intros E. injection E as <-. by simpl.
Qed.

Lemma deteccion_de_is_Some box :
  is_Some (deteccion_de box) ↔ cls box ∈ clases_peligrosas_ids names.
Proof.
  unfold deteccion_de. case_bool_decide as Hid.
  - apply elem_of_clases_peligrosas_ids in Hid as Hid'.
    destruct Hid' as (n & Hn & [a Ha]). rewrite Hn. simpl. rewrite Ha. simpl.
    split; [done | eauto].
  - split; [by intros [? ?] | done].
Qed.

Lemma revisar_box_omap objs box st :
  revisar_box objs box st = (Val (objs ++ option_list (deteccion_de box)), st).
Proof.
  unfold revisar_box, deteccion_de. case_bool_decide as Hid.
  - apply elem_of_clases_peligrosas_ids in Hid as (n & Hn & [a Ha]).
    rewrite Hn. simpl. by rewrite Ha.
  - unfold ret. simpl. by rewrite app_nil_r.
Qed.

Lemma revisar_boxes_omap bs : ∀ objs st,
  para_cada revisar_box bs objs st = (Val (objs ++ omap deteccion_de bs), st).
Proof.
  induction bs as [|box bs IH]; intros objs st; simpl.
  - unfold ret. by rewrite app_nil_r.
  - erewrite bind_val by apply revisar_box_omap. rewrite IH.
    rewrite <- app_assoc. by destruct (deteccion_de box).
Qed.

Lemma revisar_resultados_omap rs : ∀ objs st,
  (para_cada revisar_resultado rs objs st).1
    = Val (objs ++ omap deteccion_de (concat (map boxes rs))).
Proof.
  induction rs as [|r rs IH]; intros objs st; simpl.
  - by rewrite app_nil_r.
  - unfold revisar_resultado at 1, bind at 1, modificar. unfold bind at 1.
    rewrite revisar_boxes_omap, IH, omap_app. by rewrite <- app_assoc.
Qed.

Lemma deteccion_omap frame st :
  deteccion frame st =
    (Val (omap deteccion_de (concat (map boxes (predict frame umbral)))),
     con_frame_anotado (frame_tras_deteccion frame (frame_anotado st)) st).
Proof.
  destruct (deteccion_total frame st (λ _, True)) as (objs & E & _); [done|].
  pose proof (revisar_resultados_omap (predict frame umbral) [] st) as H.
  unfold deteccion in E. rewrite E in H. simpl in H. injection H as ->.
  exact E.
Qed.

(** X1. The frame's detection list is the model's boxes, results in
    order and boxes in order, with the boxes of non-dangerous classes
    dropped and each remaining box turned into its record: no dangerous
    box is lost, duplicated or reordered, and the loop never raises. *)
Theorem deteccion_es_filtro (frame : Frame) (st : Estado) :
  deteccion frame st =
    (Val (omap deteccion_de (concat (map boxes (predict frame umbral)))),
     con_frame_anotado (frame_tras_deteccion frame (frame_anotado st)) st)
  ∧ (∀ box,
       is_Some (deteccion_de box) ↔ cls box ∈ clases_peligrosas_ids names)
  ∧ (∀ box d, deteccion_de box = Some d → viene_de d box).
Proof.
  split; [apply deteccion_omap|]. split.
  - apply deteccion_de_is_Some.
  - apply deteccion_de_viene_de.
Qed.

(** *** The start-up scan *)

Lemma foldl_paso_clase_lineas items : ∀ acc,
  (∀ it, it ∈ items → names !! it.1 = Some it.2) →
  Forall2 linea_de_clase acc.1 acc.2 →
  Forall2 linea_de_clase (foldl paso_clase acc items).1
                         (foldl paso_clase acc items).2.
Proof.
  induction items as [|[idx n] items IH]; intros acc Hit Hacc; simpl; [done|].
  apply IH; [intros it Hin; apply Hit; by right|].
  pose proof (Hit (idx, n) ltac:(by left)) as Hn. simpl in Hn.
  destruct (OBJETOS_PELIGROSOS !! n) as [a|] eqn:Ha; simpl; [|done].
  apply Forall2_app; [done|]. constructor; [|constructor].
  by exists n, a.
Qed.

(** X2. The start-up scan prints exactly one [Detectando] line per
    selected class id, in the order of the ids and with the alert text
    of that id's class name; and no id is selected twice. *)
Theorem escanear_clases_lineas :
  Forall2 linea_de_clase (clases_peligrosas_ids names) (escanear_clases names).2
  ∧ NoDup (clases_peligrosas_ids names).
Proof.
  split.
  - unfold clases_peligrosas_ids, escanear_clases.
    apply foldl_paso_clase_lineas; [|done].
    intros [idx n] Hin. by apply elem_of_map_to_list in Hin.
  - rewrite clases_peligrosas_ids_filter.
    eapply sublist_NoDup; [apply (NoDup_fst_map_to_list names)|].
    apply fmap_sublist, sublist_filter.
Qed.

(** *** The exact state after the alert stage *)

Lemma anotar_app evento log :
  anotar evento log =
    log ++ (if esta_en evento (ultimos 5 log) then [] else [evento]).
Proof. unfold anotar. destruct (esta_en _ _); [by rewrite app_nil_r | done]. Qed.

Lemma anotar_lista_prefijo e objs : ∀ i log,
  log `prefix_of` anotar_lista e objs i log.
Proof.
  induction objs as [|obj objs IH]; intros i log; simpl; [done|].
  etrans; [|apply IH]. rewrite anotar_app. by apply prefix_app_r.
Qed.

Lemma anotar_lista_app e objs i log :
  anotar_lista e objs i log = log ++ nuevos e objs i log.
Proof.
  unfold nuevos. destruct (anotar_lista_prefijo e objs i log) as [k Hk].
  rewrite Hk at 2. by rewrite drop_app_length.
Qed.

Lemma nuevos_cons e obj objs i log :
  nuevos e (obj :: objs) i log =
    (if esta_en (texto_evento (hora e i) obj) (ultimos 5 log) then []
     else [texto_evento (hora e i) obj])
    ++ nuevos e objs (S i) (anotar (texto_evento (hora e i) obj) log).
Proof.
  unfold nuevos at 1. simpl. rewrite anotar_lista_app.
  rewrite anotar_app at 1. by rewrite <- app_assoc, drop_app_length.
Qed.

Lemma nuevos_nil e i log : nuevos e [] i log = [].
Proof. unfold nuevos. simpl. apply drop_all. Qed.

Lemma listar_objeto_exacto e y i obj st img :
  frame_anotado st = Some img →
  listar_objeto e (y, i) obj st =
    (Val ((y + 50)%Z, S i),
     con_traza (traza st ++ map aviso (nuevos e [obj] i (log_eventos st)))
       (con_log_eventos (anotar (texto_evento (hora e i) obj) (log_eventos st))
          (con_frame_anotado (Some (con_trazos img (chips [obj] y))) st))).
Proof.
  intros Himg. unfold listar_objeto.
  erewrite bind_val by (by apply dibujar_val).
  erewrite bind_val by (by apply dibujar_val).
  erewrite bind_val by apply registrar_anotar.
  unfold ret. f_equal. rewrite nuevos_cons, nuevos_nil, app_nil_r.
  unfold anotar. simpl. rewrite con_trazos_app. simpl.
  destruct (esta_en _ _); simpl; [|done].
  rewrite app_nil_r. by destruct st.
Qed.

Lemma listar_objetos_exacto e objs : ∀ y i st img,
  frame_anotado st = Some img →
  para_cada (listar_objeto e) objs (y, i) st =
    (Val ((y + 50 * Z.of_nat (length objs))%Z, (i + length objs)%nat),
     con_traza (traza st ++ map aviso (nuevos e objs i (log_eventos st)))
       (con_log_eventos (anotar_lista e objs i (log_eventos st))
          (con_frame_anotado (Some (con_trazos img (chips objs y))) st))).
Proof.
  induction objs as [|obj objs IH]; intros y i st img Himg.
  - simpl. unfold ret. rewrite nuevos_nil. unfold con_trazos. simpl.
    rewrite !app_nil_r. f_equal; [do 2 f_equal; lia|].
    destruct st, img. simpl in *. by subst.
  - simpl para_cada. erewrite bind_val by (by apply listar_objeto_exacto).
    erewrite IH by reflexivity.
    f_equal; [rewrite length_cons; do 2 f_equal; lia|].
    unfold con_traza, con_log_eventos, con_frame_anotado. simpl. f_equal.
    + by rewrite con_trazos_app.
    + rewrite (nuevos_cons e obj objs), (nuevos_cons e obj []), nuevos_nil.
      by rewrite app_nil_r, map_app, app_assoc.
Qed.

Lemma alertas_exacto e objs st img :
  frame_anotado st = Some img →
  alertas e objs st =
    (Val tt,
     con_traza (traza st ++ map aviso (nuevos e objs 0 (log_eventos st)))
       (con_log_eventos (anotar_lista e objs 0 (log_eventos st))
          (con_frame_anotado (Some (con_trazos img (superposicion objs)))
             (con_alertas_totales
                (alertas_totales st + Z.of_nat (length objs)) st)))).
Proof.
  intros Himg. unfold alertas. destruct objs as [|o objs].
  - unfold ret. rewrite nuevos_nil. f_equal.
    destruct st as [fc t0 f a l fa tr], img as [px ts]. simpl in *. subst.
    unfold con_traza, con_log_eventos, con_frame_anotado, con_trazos. simpl.
    rewrite !app_nil_r, Z.add_0_r. done.
  - set (os := o :: objs). unfold bind at 1, modificar.
    erewrite bind_val by (by apply dibujar_val).
    erewrite bind_val by (by apply dibujar_val).
    erewrite bind_val by (by apply listar_objetos_exacto).
    unfold ret. simpl. by rewrite !con_trazos_app.
Qed.

(** *** Every way a frame can go *)

Lemma calcular_fps_casos e st r st' :
  calcular_fps e st = (r, st') → r = Val tt ∨ r = Exc ZeroDivisionError.
Proof.
  unfold calcular_fps, bind, leer, modificar, lanzar. simpl.
  destruct (30 <=? frame_count st + 1)%Z;
    [destruct (Qeq_bool _ _)|]; intros E; injection E as <- <-; auto.
Qed.

Lemma procesar_frame_casos frame e st r st' :
  procesar_frame frame e st = (r, st') →
  (r = Exc ZeroDivisionError ∧
   calcular_fps e st = (Exc ZeroDivisionError, st'))
  ∨ (r = Exc NameError ∧ calcular_fps e st = (Val tt, st') ∧
     predict frame umbral = [] ∧ frame_anotado st = None)
  ∨ (∃ st1 img0,
       calcular_fps e st = (Val tt, st1) ∧
       frame_tras_deteccion frame (frame_anotado st) = Some img0 ∧
       let objs := omap deteccion_de (concat (map boxes (predict frame umbral))) in
       let total := (alertas_totales st + Z.of_nat (length objs))%Z in
       let img := con_trazos img0
                    (superposicion objs
                       ++ rotulos objs (fps st1) total (alto img0)) in
       r = Val objs ∧
       st' = con_traza
               (traza st ++ map aviso (nuevos e objs 0 (log_eventos st))
                  ++ [Imshow ventana img])
               (con_log_eventos (anotar_lista e objs 0 (log_eventos st))
                  (con_frame_anotado (Some img)
                     (con_alertas_totales total st1)))).
Proof.
  unfold procesar_frame. unfold bind at 1.
  destruct (calcular_fps e st) as [[[]|ex] st1] eqn:E1.
  2: { intros E. injection E as <- <-. left.
       destruct (calcular_fps_casos _ _ _ _ E1) as [?|?]; [done|].
       by simplify_eq. }
  pose proof (calcular_fps_campos _ _ _ _ E1) as (Hal1 & Hlog1 & Hfr1 & Htr1).
  pose proof (deteccion_omap frame st1) as E2.
  erewrite bind_val by exact E2. rewrite Hfr1.
  destruct (frame_tras_deteccion frame (frame_anotado st)) as [img0|] eqn:HF.
  - erewrite bind_val by (by apply alertas_exacto).
    erewrite bind_val by (by apply informacion_val).
    unfold ret. intros E. injection E as <- <-. right. right.
    exists st1, img0. split; [done|]. split; [done|]. simpl.
    split; [done|]. rewrite Hal1, Hlog1, Htr1, con_trazos_app.
    unfold con_traza, con_log_eventos, con_frame_anotado, con_alertas_totales.
    simpl. by rewrite <- app_assoc.
  - assert (Hnil : predict frame umbral = []).
    { destruct (predict frame umbral) as [|r0 rs] eqn:Hp; [done|].
      destruct (frame_tras_deteccion_nuevo frame (frame_anotado st))
        as (r1 & _ & Hr1); [by rewrite Hp | congruence]. }
    assert (Hnone : frame_anotado st = None).
    { unfold frame_tras_deteccion in HF. by rewrite Hnil in HF. }
    rewrite Hnil. simpl. unfold alertas. erewrite bind_val by done.
    erewrite bind_exc by (by apply informacion_exc).
    intros E. injection E as <- <-. right. left.
    rewrite <- Hnone, <- Hfr1, con_frame_anotado_id. rewrite Hfr1. done.
Qed.

Lemma calcular_fps_exc e st ex st' :
  calcular_fps e st = (Exc ex, st') →
  ex = ZeroDivisionError ∧ (29 ≤ frame_count st)%Z ∧
  (fst (reloj e) == fps_start_time st)%Q ∧
  st' = con_frame_count (frame_count st + 1) st.
Proof.
  unfold calcular_fps, bind, leer, modificar, lanzar. simpl.
  destruct (30 <=? frame_count st + 1)%Z eqn:Hfc; [|discriminate].
  destruct (Qeq_bool _ _) eqn:Hq; [|discriminate].
  intros E. injection E as <- <-. apply Z.leb_le in Hfc.
  apply Qeq_bool_iff in Hq. split; [done|]. split; [lia|]. split; [|done].
  apply (Qplus_inj_r _ _ (- fps_start_time st)). by rewrite Qplus_opp_r.
Qed.

Lemma controles_tras_frame e st img :
  frame_anotado st = Some img →
  ∃ c st', controles e st = (Val c, st') ∧
    frame_count st' = frame_count st ∧ fps st' = fps st ∧
    fps_start_time st' = fps_start_time st ∧
    frame_anotado st' = frame_anotado st.
Proof.
  intros Himg. unfold controles.
  destruct (Z.land (tecla e) 255 =? ord "q"%char)%Z; [by eexists _, _|].
  destruct (Z.land (tecla e) 255 =? ord "s"%char)%Z.
  { unfold bind at 1, leer. rewrite Himg. by eexists _, _. }
  destruct (Z.land (tecla e) 255 =? ord "r"%char)%Z; by eexists _, _.
Qed.

Lemma iteracion_exc_casos e st ex st' :
  iteracion e st = (Exc ex, st') → ex = ZeroDivisionError ∨ ex = NameError.
Proof.
  unfold iteracion. destruct (lectura e) as [frame|] eqn:Hl; [|discriminate].
  unfold bind. destruct (procesar_frame frame e st) as [r1 st1] eqn:E1.
  apply procesar_frame_casos in E1
    as [(-> & _)|[(-> & _)|(st0 & img0 & _ & _ & Hv)]].
  - intros E. injection E as <- <-. by left.
  - intros E. injection E as <- <-. by right.
  - simpl in Hv. destruct Hv as [-> ->].
    match goal with |- controles e ?s = _ → _ =>
      destruct (controles_tras_frame e s _ eq_refl) as (c & st2 & E2 & _) end.
    rewrite E2. discriminate.
Qed.


(** *** The FPS counter through the loop *)

Lemma calcular_fps_val e st st1 :
  calcular_fps e st = (Val tt, st1) →
  ((frame_count st < 29)%Z ∧ st1 = con_frame_count (frame_count st + 1) st)
  ∨ ((29 ≤ frame_count st)%Z ∧
     ¬ (fst (reloj e) == fps_start_time st)%Q ∧
     st1 = con_fps 0 (snd (reloj e))
             (redondear
                (inject_Z (frame_count st + 1)
                   / redondear (fst (reloj e) - fps_start_time st))) st).
Proof.
  unfold calcular_fps, bind, leer, modificar, lanzar. simpl.
  destruct (30 <=? frame_count st + 1)%Z eqn:Hfc.
  - apply Z.leb_le in Hfc. destruct (Qeq_bool _ _) eqn:Hq; [discriminate|].
    intros E. injection E as <-. right. split; [lia|]. split; [|done].
    intros Heq. apply Qeq_bool_neq in Hq. apply Hq.
    rewrite Heq. apply Qplus_opp_r.
  - apply Z.leb_gt in Hfc. intros E. injection E as <-. left. split; [lia|done].
Qed.

Lemma iteracion_reloj e st r st' :
  iteracion e st = (r, st') →
  (lectura e = None ∧ r = Val Romper ∧ frame_count st' = frame_count st ∧
   fps st' = fps st ∧ fps_start_time st' = fps_start_time st)
  ∨ (∃ r1 st1,
       calcular_fps e st = (r1, st1) ∧
       frame_count st' = frame_count st1 ∧ fps st' = fps st1 ∧
       fps_start_time st' = fps_start_time st1 ∧
       (r = Exc ZeroDivisionError ↔ r1 = Exc ZeroDivisionError)).
Proof.
  unfold iteracion. destruct (lectura e) as [frame|] eqn:Hl.
  2: { intros E. injection E as <- <-. by left. }
  unfold bind. destruct (procesar_frame frame e st) as [r1 st1] eqn:E1.
  intros E. right. apply procesar_frame_casos in E1
    as [(-> & E1)|[(-> & E1 & Hnil & Hnone)|(st0 & img0 & E1 & _ & Hv)]].
  - injection E as <- <-. by eexists _, _.
  - injection E as <- <-. eexists _, _. split; [exact E1|].
    repeat split; done.
  - simpl in Hv. destruct Hv as [-> ->].
    match type of E with controles e ?s = _ =>
      destruct (controles_tras_frame e s _ eq_refl)
        as (c & st2 & E2 & Hfc & Hfps & Ht & _) end.
    rewrite E2 in E. injection E as <- <-. eexists _, _. split; [exact E1|].
    rewrite Hfc, Hfps, Ht. repeat split; done.
Qed.

(** X4. The FPS rule of an iteration that ends normally with a frame
    read: on the first 29 frames of a cycle the frame counter grows by
    one and the FPS value and the cycle's start time stay as they are;
    on the 30th the FPS value becomes the float quotient of 30 by the
    float difference between the first clock reading and the start of
    the cycle (each operation rounded), the counter returns to 0 and the
    next cycle starts at the second clock reading. *)
Theorem fps_cada_30_frames (e : Entrada) (st : Estado) (c : Control)
    (st' : Estado) :
  iteracion e st = (Val c, st') → lectura e ≠ None →
  ((frame_count st < 29)%Z →
     frame_count st' = (frame_count st + 1)%Z ∧
     fps st' = fps st ∧ fps_start_time st' = fps_start_time st) ∧
  (frame_count st = 29 →
     frame_count st' = 0 ∧
     fps st' = redondear (30 / redondear (fst (reloj e) - fps_start_time st)) ∧
     fps_start_time st' = snd (reloj e) ∧
     ¬ (fst (reloj e) == fps_start_time st)%Q).
Proof.
  intros E Hl.
  apply iteracion_reloj in E
    as [(? & _)|(r1 & st1 & E1 & Hfc & Hfps & Ht & Hz)]; [done|].
  destruct r1 as [[]|ex].
  2: { apply calcular_fps_exc in E1 as (-> & _). by destruct Hz as [_ Hz];
       specialize (Hz eq_refl). }
  rewrite Hfc, Hfps, Ht.
  apply calcular_fps_val in E1 as [[Hlt ->]|(Hge & Hq & ->)]; simpl.
  - split; [done | lia].
  - split; [lia|]. intros ->. done.
Qed.



(** X6. While fewer than 30 frames have been counted in the cycle, no
    loop pass changes the FPS value or the cycle's start time: from the
    initial state the value shown stays at 0 for the first 29 frames. *)
Theorem fps_sin_cambio_antes_de_30 (evs : list Evento) (st : Estado)
    (r : Res Curso) (st' : Estado) :
  bucle evs st = (r, st') →
  (0 ≤ frame_count st)%Z →
  (frame_count st + Z.of_nat (length evs) < 30)%Z →
  fps st' = fps st ∧ fps_start_time st' = fps_start_time st ∧
  (frame_count st ≤ frame_count st' ≤ frame_count st + Z.of_nat (length evs))%Z.
Proof.
  revert st. induction evs as [|[e|] evs IH]; intros st; simpl length.
  - intros E _ _. injection E as <- <-. simpl. repeat split; lia.
  - simpl bucle. unfold bind.
    destruct (iteracion e st) as [rc st1] eqn:E1. intros E H0 Hlt.
    assert (H1 : fps st1 = fps st ∧ fps_start_time st1 = fps_start_time st ∧
                 (frame_count st ≤ frame_count st1 ≤ frame_count st + 1)%Z).
    { apply iteracion_reloj in E1
        as [(_ & _ & -> & -> & ->)|(r1 & s1 & Ec & -> & -> & -> & _)].
      - repeat split; lia.
      - destruct r1 as [[]|ex].
        + apply calcular_fps_val in Ec as [[_ ->]|(Hge & _)]; simpl;
            [repeat split; lia | lia].
        + apply calcular_fps_exc in Ec as (_ & Hge & _). lia. }
    destruct H1 as (Hfps & Ht & Hfc).
    destruct rc as [[]|ex].
    + apply IH in E as (-> & -> & Hfc'); [|lia|lia]. repeat split; try done; lia.
    + injection E as <- <-. repeat split; try done; lia.
    + injection E as <- <-. repeat split; try done; lia.
  - intros E _ _. injection E as <- <-. simpl. repeat split; lia.
Qed.

(** *** Every way an iteration can go *)

Lemma iteracion_casos e st r st' :
  iteracion e st = (r, st') →
  (lectura e = None ∧ r = Val Romper ∧
   st' = con_traza (traza st ++ [Consola "❌ Error al capturar frame"]) st)
  ∨ (∃ frame r1 st1,
       lectura e = Some frame ∧ procesar_frame frame e st = (r1, st1) ∧
       ((∃ ex, r1 = Exc ex ∧ r = Exc ex ∧ st' = st1)
        ∨ (∃ objs c img,
             r1 = Val objs ∧ r = Val c ∧ frame_anotado st1 = Some img ∧
             controles e st1 = (Val c, st') ∧
             frame_anotado st' = Some img))).
Proof.
  unfold iteracion. destruct (lectura e) as [frame|] eqn:Hl.
  2: { intros E. injection E as <- <-. by left. }
  unfold bind. destruct (procesar_frame frame e st) as [r1 st1] eqn:E1.
  intros E. right. exists frame, r1, st1. split; [done|]. split; [done|].
  destruct r1 as [objs|ex].
  - right.
    apply procesar_frame_casos in E1
      as [(? & _)|[(? & _)|(st0 & img0 & _ & _ & Hv)]]; try done.
    simpl in Hv. destruct Hv as [_ Hst1].
    assert (Himg : ∃ img, frame_anotado st1 = Some img)
      by (rewrite Hst1; by eexists).
    destruct Himg as [img Himg].
    destruct (controles_tras_frame e st1 img Himg)
      as (c & st2 & E2 & _ & _ & _ & Hfr).
    rewrite E2 in E. injection E as <- <-.
    exists objs, c, img. rewrite Hfr. done.
  - left. injection E as <- <-. by exists ex.
Qed.

Lemma iteracion_frame_ligado e st r st' :
  iteracion e st = (r, st') →
  is_Some (frame_anotado st) →
  is_Some (frame_anotado st') ∧ r ≠ Exc NameError.
Proof.
  intros E [img0 Himg0].
  apply iteracion_casos in E
    as [(_ & -> & ->)|(frame & r1 & st1 & _ & E1 &
         [(ex & -> & -> & ->)|(objs & c & img & -> & -> & _ & _ & Hfr)])].
  - simpl. rewrite Himg0. split; [by eexists | done].
  - apply procesar_frame_casos in E1
      as [(Hex & E1)|[(_ & _ & _ & Hnone)|(? & ? & _ & _ & Hv)]].
    + injection Hex as ->. apply calcular_fps_campos in E1 as (_ & _ & -> & _).
      rewrite Himg0. split; [by eexists | done].
    + congruence.
    + simpl in Hv. by destruct Hv as [? _].
  - rewrite Hfr. split; [by eexists | done].
Qed.

Lemma bucle_exc_casos evs : ∀ st ex st',
  bucle evs st = (Exc ex, st') →
  ex = ZeroDivisionError ∨ ex = NameError ∨ ex = KeyboardInterrupt.
Proof.
  induction evs as [|[e|] evs IH]; intros st ex st'; simpl.
  - discriminate.
  - unfold bind. destruct (iteracion e st) as [[[]|ex1] st1] eqn:E1.
    + apply IH.
    + discriminate.
    + intros E. injection E as <- <-.
      apply iteracion_exc_casos in E1 as [->| ->]; auto.
  - intros E. injection E as <- <-. auto.
Qed.

(** X7. The loop itself raises nothing but the division by zero of the
    FPS update, the [NameError] of the unbound annotated frame and the
    interrupt; and once the annotated frame has been bound it stays
    bound through every later pass, so the [NameError] can only occur
    before the first frame for which the model returned a result. *)
Theorem bucle_excepciones (evs : list Evento) (st : Estado)
    (r : Res Curso) (st' : Estado) :
  bucle evs st = (r, st') →
  (∀ ex, r = Exc ex →
     ex = ZeroDivisionError ∨ ex = NameError ∨ ex = KeyboardInterrupt) ∧
  (is_Some (frame_anotado st) →
     is_Some (frame_anotado st') ∧ r ≠ Exc NameError).
Proof.
  intros E. split.
  { intros ex ->. by apply bucle_exc_casos in E. }
  revert st E. induction evs as [|[e|] evs IH]; intros st; simpl.
  - intros E Hst. by injection E as <- <-.
  - unfold bind. destruct (iteracion e st) as [rc st1] eqn:E1. intros E Hst.
    destruct (iteracion_frame_ligado _ _ _ _ E1 Hst) as [Hs Hne].
    destruct rc as [[]|ex1].
    + by apply (IH st1).
    + by injection E as <- <-.
    + injection E as <- <-. split; [done|]. intros [= ->]. by apply Hne.
  - intros E Hst. injection E as <- <-. split; [done | discriminate].
Qed.

(** X8. Of the exceptions that leave the loop the session swallows the
    interrupt alone: it prints the notice, then the summary, and ends
    normally.  Any other exception is raised again after the summary,
    with no notice; and that can only be the division by zero or the
    [NameError]. *)
Theorem sesion_excepciones (evs : list Evento) (st : Estado)
    (ex : Excepcion) (st1 : Estado) :
  bucle evs st = (Exc ex, st1) →
  let resumen := resumen_esperado (alertas_totales st1) (log_eventos st1) in
  (ex = KeyboardInterrupt ∧
   sesion evs st =
     (Val Salio,
      con_traza
        (traza st1
           ++ Consola (nl +:+ "⚠️ Interrupción por teclado detectada")
           :: resumen) st1))
  ∨ ((ex = ZeroDivisionError ∨ ex = NameError) ∧
     sesion evs st = (Exc ex, con_traza (traza st1 ++ resumen) st1)).
Proof.
  intros Eb resumen.
  unfold sesion. rewrite Eb.
  destruct (bucle_exc_casos _ _ _ _ Eb) as [->|[->| ->]].
  - right. split; [by left|]. unfold bind, lanzar. by rewrite finalizar_val.
  - right. split; [by right|]. unfold bind, lanzar. by rewrite finalizar_val.
  - left. split; [done|]. unfold bind, ret, print, efecto, modificar.
    rewrite finalizar_val. simpl. by rewrite <- app_assoc.
Qed.

(** *** The screenshot key *)

(** X9. The screenshot key writes exactly the image that the same
    iteration has just displayed, overlays included, to
    [captura_alerta_<fecha>.jpg], reports the file name and continues;
    the counters and the log are those the frame left. *)
Theorem captura_es_lo_mostrado (e : Entrada) (st : Estado) (frame : Frame)
    (objs : list Deteccion) (st1 : Estado) :
  lectura e = Some frame →
  procesar_frame frame e st = (Val objs, st1) →
  Z.land (tecla e) 255 = ord "s"%char →
  ∃ img previo,
    frame_anotado st1 = Some img ∧
    traza st1 = previo ++ [Imshow ventana img] ∧
    iteracion e st =
      (Val Seguir,
       con_traza
         (previo
            ++ [Imshow ventana img;
                Imwrite ("captura_alerta_" +:+ fecha e +:+ ".jpg") img;
                Consola ("📸 Captura guardada: "
                           +:+ "captura_alerta_" +:+ fecha e +:+ ".jpg")])
         st1).
Proof.
  intros Hl Hp Hk. unfold iteracion. rewrite Hl.
  erewrite bind_val by exact Hp.
  apply procesar_frame_casos in Hp
    as [(? & _)|[(? & _)|(st0 & img0 & _ & _ & Hv)]]; try done.
  simpl in Hv. destruct Hv as [_ ->].
  eexists _, _. split; [reflexivity|]. split; [by rewrite app_assoc|].
  unfold controles. rewrite Hk. simpl.
  unfold bind, leer, efecto, modificar, print, efecto, modificar, ret. simpl.
  f_equal. unfold con_traza. simpl. f_equal.
  by rewrite <- !app_assoc.
Qed.

(** *** Start-up *)

Lemma arranque_exacto st :
  arranque st =
    (Val tt,
     con_traza
       (traza st
          ++ [Consola linea;
              Consola "🎥 SISTEMA DE SEGURIDAD PARA ESTADIOS - ECUADOR";
              Consola linea; Consola "📦 Cargando modelo YOLOv8...";
              Consola ("✅ Modelo cargado correctamente" +:+ nl)]
          ++ map Consola (escanear_clases names).2
          ++ [Consola (nl +:+ linea); Consola "⌨️ CONTROLES:";
              Consola "   'q' → Salir del sistema";
              Consola "   's' → Guardar captura de pantalla";
              Consola "   'r' → Resetear contador de alertas";
              Consola (linea +:+ nl)]) st).
Proof.
  unfold arranque, bind, print, efecto, modificar. simpl.
  rewrite imprimir_lineas_val. simpl.
  rewrite <- !app_assoc. simpl. reflexivity.
Qed.

(** X10. When the camera cannot be opened the script stops with
    [SystemExit] before the session: whatever the environment would
    have supplied, nothing is read or shown, the resolution is not set,
    the camera is not released and no summary is printed; the trace
    consists of console lines only, the last being the third hint. *)
Theorem sin_camara_no_hay_sesion (t0 : Q) (evs : list Evento) :
  ∃ salida,
    programa false t0 evs
      = (Exc SystemExit, con_traza salida (estado_inicial t0)) ∧
    Forall (λ ef, ∃ s, ef = Consola s) salida ∧
    last salida
      = Some (Consola "   3. Verifica los permisos de la cámara en Windows").
Proof.
  unfold programa. erewrite bind_val by apply arranque_exacto.
  unfold sin_camara, bind, print, efecto, modificar, lanzar. simpl.
  eexists. split; [reflexivity|]. split.
  - repeat match goal with
      | |- Forall _ (_ :: _) => constructor; [by eexists|]
      | |- Forall _ (_ ++ _) => apply Forall_app; split
      | |- Forall _ [] => constructor
      | |- Forall _ (map _ _) =>
          apply Forall_fmap, Forall_true; intros s; by eexists
      end.
  - by rewrite !app_comm_cons, last_snoc.
Qed.

(** *** Console and log of a frame *)

Lemma length_nuevos e objs : ∀ i log,
  (length (nuevos e objs i log) ≤ length objs)%nat.
Proof.
  induction objs as [|obj objs IH]; intros i log.
  - by rewrite nuevos_nil.
  - rewrite nuevos_cons, length_app. simpl.
    specialize (IH (S i) (anotar (texto_evento (hora e i) obj) log)).
    destruct (esta_en _ _); simpl; lia.
Qed.

Lemma elem_of_nuevos e objs : ∀ i log ev,
  ev ∈ nuevos e objs i log →
  ∃ k obj, objs !! k = Some obj ∧ ev = texto_evento (hora e (i + k)) obj.
Proof.
  induction objs as [|obj objs IH]; intros i log ev.
  - rewrite nuevos_nil. by intros ?%elem_of_nil.
  - rewrite nuevos_cons, elem_of_app. intros [Hin|Hin].
    + destruct (esta_en _ _); [by apply elem_of_nil in Hin|].
      apply list_elem_of_singleton in Hin as ->.
      exists O, obj. split; [done|]. by rewrite Nat.add_0_r.
    + apply IH in Hin as (k & o & Hk & ->). exists (S k), o.
      split; [done|]. by rewrite Nat.add_succ_r.
Qed.

(** X11. Console and log move together: a frame that reaches the
    display leaves the old log as a prefix of the new one, prints one
    alert line for each line it appended, in the same order, and then
    shows the image once; it appends at most one line per detection, and
    each appended line is the event line of one of the frame's
    detections.  A suppressed event is neither printed nor logged. *)
Theorem consola_y_log_a_la_par (frame : Frame) (e : Entrada) (st : Estado)
    (objs : list Deteccion) (st' : Estado) :
  procesar_frame frame e st = (Val objs, st') →
  ∃ nuevas img,
    log_eventos st' = log_eventos st ++ nuevas ∧
    traza st' = traza st ++ map aviso nuevas ++ [Imshow ventana img] ∧
    frame_anotado st' = Some img ∧
    (length nuevas ≤ length objs)%nat ∧
    ∀ ev, ev ∈ nuevas →
      ∃ k obj, objs !! k = Some obj ∧ ev = texto_evento (hora e k) obj.
Proof.
  intros Hp.
  apply procesar_frame_casos in Hp
    as [(? & _)|[(? & _)|(st0 & img0 & _ & _ & Hv)]]; try done.
  simpl in Hv. destruct Hv as [[= ->] ->].
  eexists _, _. simpl. split; [apply anotar_lista_app|].
  split; [reflexivity|]. split; [reflexivity|].
  split; [apply length_nuevos|]. intros ev Hev.
  by apply elem_of_nuevos in Hev.
Qed.

(** *** The overlay of a frame with detections *)

Lemma lookup_tras_dos {A} (a b : A) (l : list A) (i : nat) :
  (a :: b :: l) !! (2 + i)%nat = l !! i.
Proof. done. Qed.

Lemma length_chips objs : ∀ y, length (chips objs y) = (2 * length objs)%nat.
Proof.
  induction objs as [|o objs IH]; intros y; simpl; [done|]. rewrite IH. lia.
Qed.

Lemma chips_lookup objs : ∀ y k d,
  objs !! k = Some d →
  chips objs y !! (2 * k)%nat =
    Some (Rectangulo (40, y + 50 * Z.of_nat k - 30)
            (40 + fst (getTextSize (texto_chip d) FONT_HERSHEY_SIMPLEX (8 # 10) 2)
             + 20, y + 50 * Z.of_nat k + 10) (0, 100, 255) (-1)) ∧
  chips objs y !! (2 * k + 1)%nat =
    Some (Texto (texto_chip d) (50, y + 50 * Z.of_nat k) FONT_HERSHEY_SIMPLEX
            (8 # 10) (255, 255, 255) 2).
Proof.
  induction objs as [|o objs IH]; intros y k d Hk; [done|].
  destruct k as [|k].
  - injection Hk as ->. simpl. rewrite !Z.add_0_r. done.
  - simpl in Hk. destruct (IH (y + 50) k d Hk) as [H1 H2].
    replace (2 * S k)%nat with (S (S (2 * k))) by lia.
    replace (S (S (2 * k)) + 1)%nat with (S (S (2 * k + 1))) by lia.
    simpl chips. simpl lookup. change (k + (k + 0))%nat with (2 * k)%nat.
    rewrite H1, H2.
    replace (y + 50 + 50 * Z.of_nat k)%Z with (y + 50 * Z.of_nat (S k))%Z by lia.
    done.
Qed.

(** X12. A displayed frame with [n > 0] detections carries, on the plot
    of the model's last result: the red banner, the banner text with the
    count [n], then for the [k]-th detection (from 0) its chip rectangle
    with top edge at [90 + 50 k] and its text at height [120 + 50 k],
    and last the three information texts: [2 n + 5] drawing calls in
    all, at positions that do not depend on the image size. *)
Theorem chips_apilados (frame : Frame) (e : Entrada) (st : Estado)
    (objs : list Deteccion) (st' : Estado) (k : nat) (d : Deteccion) :
  procesar_frame frame e st = (Val objs, st') →
  objs !! k = Some d →
  ∃ r img,
    last (predict frame umbral) = Some r ∧
    frame_anotado st' = Some img ∧
    pixeles img = plot r ∧
    length (trazos img) = (2 * length objs + 5)%nat ∧
    trazos img !! 0%nat = Some banner ∧
    trazos img !! 1%nat =
      Some (Texto (texto_banner (length objs)) (50, 60) FONT_HERSHEY_DUPLEX
              (9 # 10) (255, 255, 255) 2) ∧
    trazos img !! (2 + 2 * k)%nat =
      Some (Rectangulo (40, 90 + 50 * Z.of_nat k)
              (40 + fst (getTextSize (texto_chip d) FONT_HERSHEY_SIMPLEX
                           (8 # 10) 2) + 20,
               130 + 50 * Z.of_nat k) (0, 100, 255) (-1)) ∧
    trazos img !! (3 + 2 * k)%nat =
      Some (Texto (texto_chip d) (50, 120 + 50 * Z.of_nat k)
              FONT_HERSHEY_SIMPLEX (8 # 10) (255, 255, 255) 2).
Proof.
  intros Hp Hk.
  apply procesar_frame_casos in Hp
    as [(? & _)|[(? & _)|(st0 & img0 & _ & HF & Hv)]]; try done.
  simpl in Hv. destruct Hv as [[= Hobjs] ->].
  assert (Hne : predict frame umbral ≠ []).
  { intros Hnil. rewrite Hnil in Hobjs. by subst objs. }
  destruct (frame_tras_deteccion_nuevo frame (frame_anotado st) Hne)
    as (r & Hlast & Hr).
  rewrite Hr in HF. injection HF as <-. rewrite <- Hobjs.
  exists r. eexists. split; [done|]. split; [reflexivity|].
  destruct (chips_lookup objs 120 k d Hk) as [H1 H2].
  assert (Hsup : superposicion objs =
            banner
            :: Texto (texto_banner (length objs)) (50, 60) FONT_HERSHEY_DUPLEX
                 (9 # 10) (255, 255, 255) 2
            :: chips objs 120)
    by (by destruct objs).
  assert (Hlen : (2 * k + 1 < length (chips objs 120))%nat)
    by (rewrite length_chips; apply lookup_lt_Some in Hk; lia).
  unfold con_trazos. cbn [pixeles trazos app]. rewrite Hsup.
  rewrite <- !app_comm_cons.
  split; [done|]. split.
  { cbn [length]. rewrite length_app, length_chips. unfold rotulos.
    cbn [length]. lia. }
  split; [done|]. split; [done|].
  replace (3 + 2 * k)%nat with (2 + (2 * k + 1))%nat by lia.
  rewrite !lookup_tras_dos, !lookup_app_l by lia.
  rewrite H1, H2. split; [do 3 f_equal; lia | done].
Qed.

(** *** The log through the session *)

Lemma lookup_ultimos {A} n (l : list A) i x :
  l !! i = Some x → (length l - n ≤ i)%nat → x ∈ ultimos n l.
Proof.
  intros Hi Hn. unfold ultimos. apply list_elem_of_lookup.
  exists (i - (length l - n))%nat. rewrite lookup_drop. rewrite <- Hi.
  f_equal. lia.
Qed.

Lemma espaciado_anotar evento log :
  espaciado log → espaciado (anotar evento log).
Proof.
  intros Hlog. unfold anotar, esta_en. case_bool_decide as Hin; [done|].
  intros i j x Hij Hi Hj.
  assert (Hjlen : (j < length (log ++ [evento]))%nat)
    by (by apply lookup_lt_Some in Hj).
  rewrite length_app in Hjlen. simpl in Hjlen.
  destruct (decide (j = length log)) as [->|Hne].
  - rewrite lookup_app_l in Hi by lia.
    rewrite lookup_app_r, Nat.sub_diag in Hj by lia. injection Hj as <-.
    destruct (decide (5 < length log - i)%nat) as [|Hcerca]; [done|].
    exfalso. apply Hin. apply (lookup_ultimos 5 log i); [done | lia].
  - rewrite lookup_app_l in Hi by lia. rewrite lookup_app_l in Hj by lia.
    by apply (Hlog i j x).
Qed.

Lemma espaciado_nil : espaciado [].
Proof. intros i j x _ Hi. by rewrite lookup_nil in Hi. Qed.

(** Whatever holds of the empty log and is kept by logging one line
    holds of the log in every state the loop reaches. *)
Lemma log_invariante (P : list string → Prop) :
  P [] → (∀ ev l, P l → P (anotar ev l)) →
  ∀ evs st r st',
    bucle evs st = (r, st') → P (log_eventos st) → P (log_eventos st').
Proof.
  intros Hnil Hanotar.
  assert (Hlista : ∀ e objs i l, P l → P (anotar_lista e objs i l)).
  { intros e objs. induction objs as [|o objs IH]; intros i l Hl; simpl;
      [done | by apply IH, Hanotar]. }
  assert (Hit : ∀ e st r st',
    iteracion e st = (r, st') → P (log_eventos st) → P (log_eventos st')).
  { intros e st r st' E Hst.
    apply iteracion_casos in E
      as [(_ & _ & ->)|(frame & r1 & st1 & _ & E1 &
           [(ex & -> & _ & ->)|(objs & c & img & -> & _ & _ & E2 & _)])];
      [done| |].
    - apply procesar_frame_casos in E1
        as [(_ & E1)|[(_ & E1 & _)|(? & ? & _ & _ & Hv)]].
      + apply calcular_fps_campos in E1 as (_ & -> & _). done.
      + apply calcular_fps_campos in E1 as (_ & -> & _). done.
      + simpl in Hv. by destruct Hv as [? _].
    - assert (H1 : P (log_eventos st1)).
      { apply procesar_frame_casos in E1
          as [(? & _)|[(? & _)|(? & ? & _ & _ & Hv)]]; try done.
        simpl in Hv. destruct Hv as [_ ->]. simpl. by apply Hlista. }
      apply controles_contadores in E2 as [[_ ->]|[_ ->]]; done. }
  intros evs. induction evs as [|[e|] evs IH]; intros st r st'; simpl.
  - intros E. by injection E as <- <-.
  - unfold bind. destruct (iteracion e st) as [[[]|ex] st1] eqn:E1;
      intros E Hst; pose proof (Hit _ _ _ _ E1 Hst) as H1.
    + by eapply IH.
    + by injection E as <- <-.
    + by injection E as <- <-.
  - intros E. by injection E as <- <-.
Qed.

(** X13. In every state the script reaches, two equal lines of the
    event log are more than five entries apart: any six consecutive
    entries are pairwise different.  The property holds of the empty
    log, survives every loop pass and the reset, and the summary does
    not touch the log. *)
Theorem log_espaciado :
  (∀ evs st r st',
     bucle evs st = (r, st') →
     espaciado (log_eventos st) → espaciado (log_eventos st')) ∧
  (∀ isOpened t0 evs, espaciado (log_eventos (programa isOpened t0 evs).2)).
Proof.
  assert (Hb : ∀ evs st r st',
     bucle evs st = (r, st') →
     espaciado (log_eventos st) → espaciado (log_eventos st')).
  { apply log_invariante; [apply espaciado_nil|].
    intros ev l. apply espaciado_anotar. }
  split; [exact Hb|].
  intros isOpened t0 evs. unfold programa.
  erewrite bind_val by apply arranque_exacto. destruct isOpened.
  - unfold bind at 1, efecto, modificar. unfold bind at 1. unfold bind at 1.
    unfold print, efecto, modificar. unfold sesion.
    match goal with |- context [bucle evs ?s] =>
      destruct (bucle evs s) as [rb sb] eqn:Eb;
      assert (Hsb : espaciado (log_eventos sb))
        by (eapply Hb; [exact Eb | apply espaciado_nil]) end.
    destruct rb as [[]|ex]; [done| |].
    + unfold bind, ret. by rewrite finalizar_val.
    + destruct ex; unfold bind, lanzar, ret, print, efecto, modificar;
        by rewrite finalizar_val.
  - unfold sin_camara, bind, print, efecto, modificar, lanzar. simpl.
    apply espaciado_nil.
Qed.

(** X14. While the log holds five entries or fewer the window is the
    whole log: a line is recorded (and printed) exactly when it is not
    in the log at all, so such a log never holds a line twice; on the
    empty log, as after a reset, every line is recorded. *)
Theorem dedup_global_en_log_corto (evento : string) (st : Estado) :
  (length (log_eventos st) ≤ 5)%nat →
  ∃ st',
    registrar evento st = (Val tt, st') ∧
    (evento ∈ log_eventos st → st' = st) ∧
    (evento ∉ log_eventos st →
       log_eventos st' = log_eventos st ++ [evento] ∧
       traza st' = traza st ++ [aviso evento]) ∧
    (NoDup (log_eventos st) → NoDup (log_eventos st')).
Proof.
  intros Hlen.
  assert (Hu : ultimos 5 (log_eventos st) = log_eventos st).
  { unfold ultimos. replace (length (log_eventos st) - 5)%nat with O by lia.
    done. }
  eexists. split; [apply registrar_anotar|]. rewrite Hu.
  unfold anotar, esta_en. rewrite Hu. case_bool_decide as Hin.
  - split; [done|]. split; [done|]. done.
  - split; [done|]. split; [done|]. simpl. intros Hnd.
    apply NoDup_app. split; [done|]. split; [|apply NoDup_singleton].
    intros x Hx ->%list_elem_of_singleton. done.
Qed.

(** *** The counters without the reset key *)

Lemma controles_sin_reset e st r st' :
  Z.land (tecla e) 255 ≠ ord "r"%char →
  controles e st = (r, st') →
  alertas_totales st' = alertas_totales st ∧ log_eventos st' = log_eventos st.
Proof.
  intros Hk. unfold controles.
  destruct (Z.land (tecla e) 255 =? ord "q"%char)%Z.
  { intros E. by injection E as <- <-. }
  destruct (Z.land (tecla e) 255 =? ord "s"%char)%Z.
  { unfold bind, leer. destruct (frame_anotado st); intros E;
      by injection E as <- <-. }
  destruct (Z.land (tecla e) 255 =? ord "r"%char)%Z eqn:Hr.
  { by apply Z.eqb_eq in Hr. }
  intros E. by injection E as <- <-.
Qed.

Lemma iteracion_sin_reset e st r st' :
  Z.land (tecla e) 255 ≠ ord "r"%char →
  iteracion e st = (r, st') →
  (alertas_totales st ≤ alertas_totales st')%Z ∧
  log_eventos st `prefix_of` log_eventos st' ∧
  (r = Val Seguir →
     alertas_totales st' =
       (alertas_totales st + Z.of_nat (length (detecciones_de_entrada e)))%Z).
Proof.
  intros Hk E.
  apply iteracion_casos in E
    as [(_ & -> & ->)|(frame & r1 & st1 & Hl & E1 &
         [(ex & -> & -> & ->)|(objs & c & img & -> & -> & _ & E2 & _)])].
  - simpl. split; [lia|]. split; [done | discriminate].
  - apply procesar_frame_casos in E1
      as [(_ & E1)|[(_ & E1 & _)|(? & ? & _ & _ & Hv)]].
    + apply calcular_fps_campos in E1 as (-> & -> & _).
      split; [lia|]. split; [done | discriminate].
    + apply calcular_fps_campos in E1 as (-> & -> & _).
      split; [lia|]. split; [done | discriminate].
    + simpl in Hv. by destruct Hv as [? _].
  - apply (controles_sin_reset _ _ _ _ Hk) in E2 as [-> ->].
    apply procesar_frame_casos in E1
      as [(? & _)|[(? & _)|(st0 & ? & E0 & _ & Hv)]]; try done.
    simpl in Hv. destruct Hv as [[= ->] ->]. simpl.
    unfold detecciones_de_entrada. rewrite Hl.
    split; [lia|]. split; [apply anotar_lista_prefijo | done].
Qed.

(** X15. As long as the reset key is not pressed the alert counter
    never decreases and the log only grows at its end; and after a run
    of passes that all continued, the counter has grown by the number of
    boxes of dangerous classes the model returned over those frames,
    each frame counted anew. *)
Theorem sin_reset_todo_crece (evs : list Evento) (st : Estado)
    (r : Res Curso) (st' : Estado) :
  bucle evs st = (r, st') →
  (∀ e, Vuelta e ∈ evs → Z.land (tecla e) 255 ≠ ord "r"%char) →
  (alertas_totales st ≤ alertas_totales st')%Z ∧
  log_eventos st `prefix_of` log_eventos st' ∧
  (r = Val Corriendo →
     alertas_totales st' = (alertas_totales st + total_detecciones evs)%Z).
Proof.
  revert st. induction evs as [|[e|] evs IH]; intros st; simpl.
  - intros E _. injection E as <- <-. split; [lia|]. split; [done|lia].
  - unfold bind. destruct (iteracion e st) as [rc st1] eqn:E1. intros E Hk.
    destruct (iteracion_sin_reset e st rc st1) as (Hal & Hlog & Hex);
      [apply Hk; by left | done |].
    destruct rc as [[]|ex].
    + apply IH in E as (Hal' & Hlog' & Hex');
        [|intros e' He'; apply Hk; by right].
      split; [lia|]. split; [by etrans|].
      intros Hr. rewrite (Hex' Hr), (Hex eq_refl). lia.
    + injection E as <- <-. split; [done|]. split; [done | discriminate].
    + injection E as <- <-. split; [done|]. split; [done | discriminate].
  - intros E _. injection E as <- <-. split; [lia|]. split; [done|discriminate].
Qed.

(** *** The quit key *)

(** X16. The quit key is read after the frame has been processed: the
    frame of that iteration is displayed and its detections are counted
    and logged before the loop is left, so the summary's total includes
    them; events the environment might still supply are not consumed. *)
Theorem quit_tras_procesar (evs : list Evento) (e : Entrada)
    (resto : list Evento) (frame : Frame) (objs : list Deteccion)
    (st st1 st2 : Estado) :
  bucle evs st = (Val Corriendo, st1) →
  lectura e = Some frame →
  procesar_frame frame e st1 = (Val objs, st2) →
  Z.land (tecla e) 255 = ord "q"%char →
  ∃ st' img,
    sesion (evs ++ Vuelta e :: resto) st = (Val Salio, st') ∧
    alertas_totales st' = (alertas_totales st1 + Z.of_nat (length objs))%Z ∧
    log_eventos st1 `prefix_of` log_eventos st' ∧
    Imshow ventana img ∈ traza st2 ∧
    traza st' =
      traza st2
        ++ Consola (nl +:+ "🛑 Deteniendo sistema de detección...")
        :: resumen_esperado
             (alertas_totales st1 + Z.of_nat (length objs)) (log_eventos st').
Proof.
  intros Hb Hl Hp Hk.
  rewrite (sesion_quit evs e resto frame objs st st1 st2 Hb Hl Hp Hk).
  apply procesar_frame_casos in Hp
    as [(? & _)|[(? & _)|(st0 & img0 & E0 & _ & Hv)]]; try done.
  simpl in Hv. destruct Hv as [[= ->] ->].
  eexists _, _. split; [reflexivity|]. simpl.
  split; [done|]. split; [apply anotar_lista_prefijo|]. split; [|done].
  rewrite !elem_of_app. right. right. by apply list_elem_of_singleton.
Qed.

(** *** Logging the same line again *)

Lemma ultimos_snoc {A} (l : list A) x : x ∈ ultimos 5 (l ++ [x]).
Proof.
  apply (lookup_ultimos 5 (l ++ [x]) (length l)).
  - by rewrite lookup_app_r, Nat.sub_diag by lia.
  - rewrite length_app. simpl. lia.
Qed.

(** X17. Logging is idempotent: logging a line and at once the same
    line again leaves exactly the state of logging it once, console
    included.  Identical event lines of consecutive frames (same object,
    same percentage, same clock second) are therefore recorded once,
    while the alert counter counts them every time. *)
Theorem registrar_idempotente (evento : string) (st : Estado) :
  (registrar evento ;;; registrar evento) st = registrar evento st.
Proof.
  unfold bind at 1. rewrite (registrar_anotar evento st).
  destruct (esta_en evento (ultimos 5 (log_eventos st))) eqn:Hin.
  - rewrite registrar_anotar. by rewrite Hin.
  - rewrite registrar_anotar. simpl. unfold anotar at 1. rewrite Hin.
    unfold esta_en at 1. rewrite bool_decide_eq_true_2 by apply ultimos_snoc.
    done.
Qed.
End Programa.

(** ** The properties on the concrete environment *)

Local Abbreviation demo_procesar_frame p :=
  (procesar_frame Demo.names p Demo.formato_pct Demo.formato_fps
     Demo.getTextSize Demo.redondear).
Local Abbreviation demo_bucle p :=
  (bucle Demo.names p Demo.formato_pct Demo.formato_fps Demo.getTextSize Demo.redondear).
Local Abbreviation demo_sesion p :=
  (sesion Demo.names p Demo.formato_pct Demo.formato_fps Demo.getTextSize Demo.redondear).
Local Abbreviation demo_programa p :=
  (programa Demo.names p Demo.formato_pct Demo.formato_fps Demo.getTextSize Demo.redondear).

Lemma demo_predict_respeta_umbral : respeta_umbral Demo.predict.
Proof.
  intros frame c r box Hr Hbox. unfold Demo.predict in Hr.
  apply list_elem_of_singleton in Hr as ->. simpl in Hbox.
  apply list_elem_of_filter in Hbox as [Hc _]. by apply Qle_bool_iff.
Qed.

Lemma C1_witness :
  respeta_umbral Demo.predict ∧
  ∃ objs st',
    deteccion Demo.names Demo.predict Demo.frame (estado_inicial 0)
      = (Val objs, st') ∧
    ∀ d, d ∈ objs →
      is_Some (OBJETOS_PELIGROSOS !! nombre d) ∧ (3 # 10 <= confianza d)%Q.
Proof.
  split; [exact demo_predict_respeta_umbral|].
  destruct (C1_detecciones_filtradas Demo.names Demo.predict Demo.frame
              (estado_inicial 0)) as (objs & st' & E & Hclave & Hconf).
  exists objs, st'. split; [exact E|]. intros d Hd. split.
  - exact (proj1 (Hclave d Hd)).
  - exact (Hconf demo_predict_respeta_umbral d Hd).
Defined.

Lemma C2_witness :
  Demo.names !! 43 = Some "knife" ∧
  (43 ∈ clases_peligrosas_ids Demo.names
     ↔ is_Some (OBJETOS_PELIGROSOS !! "knife")).
Proof.
  assert (H : Demo.names !! 43 = Some "knife") by (vm_compute; reflexivity).
  split; [exact H | exact (C2_ids_iff_clave Demo.names 43 "knife" H)].
Defined.


Lemma C4_witness :
  Z.land (tecla (Demo.entrada 114)) 255 = ord "r"%char ∧
  ∃ st',
    controles (Demo.entrada 114) Demo.con_historia = (Val Seguir, st') ∧
    alertas_totales st' = 0 ∧ log_eventos st' = [].
Proof.
  assert (H : Z.land (tecla (Demo.entrada 114)) 255 = ord "r"%char)
    by reflexivity.
  split; [exact H|].
  destruct (C4_reset Demo.names Demo.predict Demo.formato_pct Demo.formato_fps
              Demo.getTextSize Demo.redondear (Demo.entrada 114) Demo.con_historia H)
    as (st' & E & Hal & Hlog & _).
  exists st'. auto.
Defined.


Lemma C7_witness :
  let run := demo_procesar_frame Demo.predict_vacio Demo.frame
               (Demo.entrada (-1)) Demo.con_historia in
  run.1 = Val [] ∧
  alertas_totales run.2 = 9 ∧
  log_eventos run.2 = ["a"; "b"; "c"; "d"; "e"; "f"; "g"].
Proof.
  intros run.
  assert (H1 : run.1 = Val []) by (vm_compute; reflexivity).
  split; [exact H1|].
  assert (H : run = (Val [], run.2))
    by (rewrite <- H1; apply surjective_pairing).
  destruct (C7_zona_segura Demo.names Demo.predict_vacio Demo.formato_pct
              Demo.formato_fps Demo.getTextSize Demo.redondear Demo.frame (Demo.entrada (-1))
              Demo.con_historia run.2 H)
    as (img0 & img & _ & _ & _ & _ & _ & Hal & Hlog).
  split; [exact Hal | exact Hlog].
Defined.

Lemma C8_witness :
  let run := demo_procesar_frame Demo.predict Demo.frame
               (Demo.entrada (-1)) Demo.con_historia in
  run.1 = Val [Demo.cuchillo; Demo.botella] ∧
  alertas_totales run.2 = 11 ∧
  log_eventos run.2 =
    ["a"; "b"; "c"; "d"; "e"; "f"; "g";
     "[12:00:00] 🔪 CUCHILLO - Confianza: 80%";
     "[12:00:00] 🍾 BOTELLA - Confianza: 40%"].
Proof.
  intros run.
  assert (H1 : run.1 = Val [Demo.cuchillo; Demo.botella])
    by (vm_compute; reflexivity).
  split; [exact H1|].
  assert (H : run = (Val [Demo.cuchillo; Demo.botella], run.2))
    by (rewrite <- H1; apply surjective_pairing).
  destruct (C8_dos_detecciones Demo.names Demo.predict Demo.formato_pct
              Demo.formato_fps Demo.getTextSize Demo.redondear Demo.frame (Demo.entrada (-1))
              Demo.con_historia run.2 Demo.cuchillo Demo.botella H)
    as (r & _ & _ & Hal & Hlog).
  split; [exact Hal|]. rewrite Hlog. vm_compute. reflexivity.
Defined.

Lemma C9_witness :
  let evs := [Vuelta (Demo.entrada (-1))] in
  let st1 := (demo_bucle Demo.predict evs (estado_inicial 0)).2 in
  demo_bucle Demo.predict evs (estado_inicial 0) = (Val Corriendo, st1) ∧
  lectura Demo.sin_lectura = None ∧
  demo_sesion Demo.predict
      (evs ++ [Vuelta Demo.sin_lectura; Vuelta (Demo.entrada (-1))])
      (estado_inicial 0)
    = (Val Salio,
       con_traza
         (traza st1 ++ Consola "❌ Error al capturar frame"
            :: resumen_esperado (alertas_totales st1) (log_eventos st1)) st1).
Proof.
  intros evs st1.
  assert (H : demo_bucle Demo.predict evs (estado_inicial 0)
              = (Val Corriendo, st1)) by (vm_compute; reflexivity).
  split; [exact H|]. split; [reflexivity|].
  exact (proj2 (C9_fallo_de_captura Demo.names Demo.predict Demo.formato_pct
                  Demo.formato_fps Demo.getTextSize Demo.redondear evs Demo.sin_lectura
                  (estado_inicial 0) st1 H eq_refl)
               [Vuelta (Demo.entrada (-1))]).
Defined.



(** C6. On the first frame of a session, a predictor that returns no
    result object leaves [frame_anotado] unbound: the frame ends at line
    141 in a [NameError], which the session does not catch; the script
    runs the [finally] block and dies with that exception.  With one
    result and no box the same frame is displayed normally. *)
Theorem C6_sin_resultados_NameError :
  demo_procesar_frame Demo.predict_nada Demo.frame (Demo.entrada (-1))
      (estado_inicial 0)
    = (Exc NameError, con_frame_count 1 (estado_inicial 0)) ∧
  (demo_programa Demo.predict_nada true 0 [Vuelta (Demo.entrada (-1))]).1
    = Exc NameError ∧
  (demo_procesar_frame Demo.predict_vacio Demo.frame (Demo.entrada (-1))
      (estado_inicial 0)).1
    = Val [].
Proof.
  split; [|split].
  - apply (frame_anotado_indefinido Demo.names Demo.predict_nada); reflexivity.
  - vm_compute. reflexivity.
  - vm_compute. reflexivity.
Qed.

(** ** The further properties on the concrete environment *)

Local Abbreviation demo_iteracion p :=
  (iteracion Demo.names p Demo.formato_pct Demo.formato_fps Demo.getTextSize Demo.redondear).


Lemma fps_cada_30_frames_witness :
  let run := demo_iteracion Demo.predict (Demo.entrada (-1)) Demo2.en_29 in
  run.1 = Val Seguir ∧ frame_count run.2 = 0 ∧ fps run.2 = (30 / (1 - 0))%Q.
Proof.
  intros run.
  assert (H1 : run.1 = Val Seguir) by (vm_compute; reflexivity).
  split; [exact H1|].
  assert (H : run = (Val Seguir, run.2))
    by (rewrite <- H1; apply surjective_pairing).
  assert (Hl : lectura (Demo.entrada (-1)) ≠ None) by discriminate.
  destruct (proj2 (fps_cada_30_frames Demo.names Demo.predict Demo.formato_pct
              Demo.formato_fps Demo.getTextSize Demo.redondear (Demo.entrada (-1))
              Demo2.en_29 Seguir run.2 H Hl) eq_refl)
    as (Hfc & Hfps & _).
  split; [exact Hfc | exact Hfps].
Defined.


Lemma fps_sin_cambio_antes_de_30_witness :
  let evs := [Vuelta (Demo.entrada (-1)); Vuelta (Demo.entrada (-1))] in
  fps (demo_bucle Demo.predict evs (estado_inicial 0)).2 = 0%Q.
Proof.
  intros evs.
  refine (proj1 (fps_sin_cambio_antes_de_30 Demo.names Demo.predict
           Demo.formato_pct Demo.formato_fps Demo.getTextSize Demo.redondear evs
           (estado_inicial 0) _ _ (surjective_pairing _) _ _)).
  - simpl. lia.
  - simpl. lia.
Defined.

Lemma bucle_excepciones_witness :
  let run := demo_bucle Demo.predict_nada
               [Vuelta (Demo.entrada (-1)); Vuelta (Demo.entrada (-1))]
               Demo2.con_frame in
  is_Some (frame_anotado Demo2.con_frame) ∧
  is_Some (frame_anotado run.2) ∧ run.1 ≠ Exc NameError.
Proof.
  intros run.
  assert (Hs : is_Some (frame_anotado Demo2.con_frame)) by (by eexists).
  split; [exact Hs|].
  exact (proj2 (bucle_excepciones Demo.names Demo.predict_nada Demo.formato_pct
                  Demo.formato_fps Demo.getTextSize Demo.redondear _ _ run.1 run.2
                  (surjective_pairing _)) Hs).
Defined.

Lemma sesion_excepciones_witness :
  let evs := [Vuelta (Demo.entrada (-1)); Ctrl_C] in
  (demo_bucle Demo.predict evs (estado_inicial 0)).1 = Exc KeyboardInterrupt ∧
  (demo_sesion Demo.predict evs (estado_inicial 0)).1 = Val Salio.
Proof.
  intros evs.
  assert (H1 : (demo_bucle Demo.predict evs (estado_inicial 0)).1
               = Exc KeyboardInterrupt) by (vm_compute; reflexivity).
  split; [exact H1|].
  assert (H : demo_bucle Demo.predict evs (estado_inicial 0)
              = (Exc KeyboardInterrupt,
                 (demo_bucle Demo.predict evs (estado_inicial 0)).2))
    by (rewrite <- H1; apply surjective_pairing).
  destruct (sesion_excepciones Demo.names Demo.predict Demo.formato_pct
              Demo.formato_fps Demo.getTextSize Demo.redondear evs (estado_inicial 0)
              KeyboardInterrupt _ H) as [[_ Hs]|[[Hx|Hx] _]].
  - rewrite Hs. reflexivity.
  - discriminate Hx.
  - discriminate Hx.
Defined.

Lemma captura_es_lo_mostrado_witness :
  let run := demo_procesar_frame Demo.predict Demo.frame (Demo.entrada 115)
               (estado_inicial 0) in
  run.1 = Val [Demo.cuchillo; Demo.botella] ∧
  Z.land (tecla (Demo.entrada 115)) 255 = ord "s"%char ∧
  (demo_iteracion Demo.predict (Demo.entrada 115) (estado_inicial 0)).1
    = Val Seguir.
Proof.
  intros run.
  assert (H1 : run.1 = Val [Demo.cuchillo; Demo.botella])
    by (vm_compute; reflexivity).
  split; [exact H1|]. split; [reflexivity|].
  assert (H : run = (Val [Demo.cuchillo; Demo.botella], run.2))
    by (rewrite <- H1; apply surjective_pairing).
  destruct (captura_es_lo_mostrado Demo.names Demo.predict Demo.formato_pct
              Demo.formato_fps Demo.getTextSize Demo.redondear (Demo.entrada 115)
              (estado_inicial 0) Demo.frame _ run.2 eq_refl H eq_refl)
    as (img & previo & _ & _ & Hit).
  rewrite Hit. reflexivity.
Defined.

Lemma consola_y_log_a_la_par_witness :
  let run := demo_procesar_frame Demo.predict Demo.frame (Demo.entrada (-1))
               Demo.con_historia in
  run.1 = Val [Demo.cuchillo; Demo.botella] ∧
  ∃ nuevas,
    log_eventos run.2 = log_eventos Demo.con_historia ++ nuevas ∧
    (length nuevas ≤ 2)%nat.
Proof.
  intros run.
  assert (H1 : run.1 = Val [Demo.cuchillo; Demo.botella])
    by (vm_compute; reflexivity).
  split; [exact H1|].
  assert (H : run = (Val [Demo.cuchillo; Demo.botella], run.2))
    by (rewrite <- H1; apply surjective_pairing).
  destruct (consola_y_log_a_la_par Demo.names Demo.predict Demo.formato_pct
              Demo.formato_fps Demo.getTextSize Demo.redondear Demo.frame (Demo.entrada (-1))
              Demo.con_historia _ run.2 H)
    as (nuevas & img & Hlog & _ & _ & Hlen & _).
  exists nuevas. split; [exact Hlog | exact Hlen].
Defined.

Lemma chips_apilados_witness :
  let run := demo_procesar_frame Demo.predict Demo.frame (Demo.entrada (-1))
               (estado_inicial 0) in
  run.1 = Val [Demo.cuchillo; Demo.botella] ∧
  ∃ img,
    frame_anotado run.2 = Some img ∧
    length (trazos img) = 9%nat ∧
    trazos img !! 5%nat =
      Some (Texto (texto_chip Demo.formato_pct Demo.botella) (50, 170)
              FONT_HERSHEY_SIMPLEX (8 # 10) (255, 255, 255) 2).
Proof.
  intros run.
  assert (H1 : run.1 = Val [Demo.cuchillo; Demo.botella])
    by (vm_compute; reflexivity).
  split; [exact H1|].
  assert (H : run = (Val [Demo.cuchillo; Demo.botella], run.2))
    by (rewrite <- H1; apply surjective_pairing).
  destruct (chips_apilados Demo.names Demo.predict Demo.formato_pct
              Demo.formato_fps Demo.getTextSize Demo.redondear Demo.frame (Demo.entrada (-1))
              (estado_inicial 0) _ run.2 1%nat Demo.botella H eq_refl)
    as (r & img & _ & Hfr & _ & Hlen & _ & _ & _ & Htxt).
  exists img. split; [exact Hfr|]. split; [exact Hlen | exact Htxt].
Defined.

Lemma log_espaciado_witness :
  espaciado
    (log_eventos
       (demo_programa Demo.predict true 0
          [Vuelta (Demo.entrada (-1)); Vuelta (Demo.entrada (-1))]).2).
Proof.
  exact (proj2 (log_espaciado Demo.names Demo.predict Demo.formato_pct
                  Demo.formato_fps Demo.getTextSize Demo.redondear) true 0%Q _).
Defined.

Lemma dedup_global_en_log_corto_witness :
  (length (log_eventos (estado_inicial 0)) ≤ 5)%nat ∧
  ∃ st',
    registrar "x" (estado_inicial 0) = (Val tt, st') ∧
    log_eventos st' = ["x"].
Proof.
  assert (Hlen : (length (log_eventos (estado_inicial 0)) ≤ 5)%nat)
    by (simpl; lia).
  split; [exact Hlen|].
  destruct (dedup_global_en_log_corto "x" (estado_inicial 0) Hlen)
    as (st' & E & _ & Hnuevo & _).
  exists st'. split; [exact E|].
  refine (proj1 (Hnuevo _)). simpl. apply not_elem_of_nil.
Defined.

Lemma sin_reset_todo_crece_witness :
  let evs := [Vuelta (Demo.entrada (-1)); Vuelta (Demo.entrada (-1))] in
  let run := demo_bucle Demo.predict evs (estado_inicial 0) in
  run.1 = Val Corriendo ∧ alertas_totales run.2 = 4.
Proof.
  intros evs run.
  assert (H1 : run.1 = Val Corriendo) by (vm_compute; reflexivity).
  split; [exact H1|].
  assert (Hk : ∀ e, Vuelta e ∈ evs →
                 Z.land (tecla e) 255 ≠ ord "r"%char).
  { intros e He. apply list_elem_of_In in He. simpl in He.
    destruct He as [He|[He|[]]]; injection He as <-; discriminate. }
  destruct (sin_reset_todo_crece Demo.names Demo.predict Demo.formato_pct
              Demo.formato_fps Demo.getTextSize Demo.redondear evs (estado_inicial 0)
              run.1 run.2 (surjective_pairing _) Hk) as (_ & _ & Hsum).
  rewrite (Hsum H1). vm_compute. reflexivity.
Defined.

Lemma quit_tras_procesar_witness :
  let run := demo_procesar_frame Demo.predict Demo.frame (Demo.entrada 113)
               (estado_inicial 0) in
  run.1 = Val [Demo.cuchillo; Demo.botella] ∧
  Z.land (tecla (Demo.entrada 113)) 255 = ord "q"%char ∧
  ∃ st',
    demo_sesion Demo.predict ([] ++ [Vuelta (Demo.entrada 113); Ctrl_C])
        (estado_inicial 0) = (Val Salio, st') ∧
    alertas_totales st' = 2.
Proof.
  intros run.
  assert (H1 : run.1 = Val [Demo.cuchillo; Demo.botella])
    by (vm_compute; reflexivity).
  split; [exact H1|]. split; [reflexivity|].
  assert (H : run = (Val [Demo.cuchillo; Demo.botella], run.2))
    by (rewrite <- H1; apply surjective_pairing).
  destruct (quit_tras_procesar Demo.names Demo.predict Demo.formato_pct
              Demo.formato_fps Demo.getTextSize Demo.redondear [] (Demo.entrada 113) [Ctrl_C]
              Demo.frame _ (estado_inicial 0) (estado_inicial 0) run.2
              eq_refl eq_refl H eq_refl)
    as (st' & img & Hs & Hal & _).
  exists st'. split; [exact Hs | exact Hal].
Defined.
